(** * process_van: normalisation, classification and report ordering

    A shallow embedding of [src/src/process_van.py].  A pandas DataFrame is
    a sequence of row records, one field per column, the position in the
    sequence standing for the (reset, hence unique) index label; a null
    cell ([NaN] / [None]) is [None].  Column-wise pandas operations
    ([isin], [map], boolean [.loc] assignment, [fillna], [ffill],
    [dropna], [sort_values]) are written out row by row.

    Conventions taken from pandas: the text columns hold strings or nulls
    (object dtype; a Class column without any string is the case
    [reports_written] sets apart); [isin] and the lookup of [Series.map] treat a null cell
    as equal to a null key; [sort_values] is stable under
    [kind="mergesort"] and puts null keys last; an [Order] read from the
    class-map file is a number. *)

Set Warnings "-notation-overridden,-redundant-canonical-projection,-rewrite-rw".
From Stdlib Require Import String Ascii ZArith QArith Lia.
From HB Require Import structures.
From mathcomp Require Import boot.

Close Scope Q_scope.

Set Implicit Arguments.
Unset Strict Implicit.
Unset Printing Implicit Defensive.

(** ** Equality structures for the cell types *)

HB.instance Definition _ := hasDecEq.Build string String.eqb_spec.
HB.instance Definition _ := hasDecEq.Build Z Z.eqb_spec.

(** A [Value] cell read from the CSV is text, or a number once pandas has
    parsed the column. *)
Inductive cell : Type :=
  | Str (s : string)
  | Num (z : Z).

Definition cell_to_sum (c : cell) : string + Z :=
  match c with Str s => inl s | Num z => inr z end.
Definition sum_to_cell (x : string + Z) : cell :=
  match x with inl s => Str s | inr z => Num z end.

Definition cell_sumK : cancel cell_to_sum sum_to_cell :=
  fun c => match c with Str _ => erefl | Num _ => erefl end.

HB.instance Definition _ := Equality.copy cell (can_type cell_sumK).

(** ** Data model *)

(** The frame returned by [read_csv_portfolio]: columns
    [Fund Name], [Account Name], [Symbol], [Value], [% of Portfolio]. *)
Record raw_row : Type := RawRow {
  raw_FundName : option string;
  raw_AccountName : option string;
  raw_Symbol : option string;
  raw_Value : option cell;
  raw_Pct : option string
}.

(** The holdings frame [vadf] once [Class] has been inserted at column 0
    and the two name columns renamed. *)
Record row : Type := Row {
  Class : option string;
  Name : option string;
  Account : option string;
  Symbol : option string;
  Value : option cell;
  Pct : option string
}.

Definition row_to_tuple (r : row) :=
  (Class r, Name r, Account r, Symbol r, Value r, Pct r).
Definition tuple_to_row
  (t : option string * option string * option string * option string *
       option cell * option string) : row :=
  let: (c, n, a, s, v, p) := t in Row c n a s v p.

Definition row_tupleK : cancel row_to_tuple tuple_to_row :=
  fun r => let: Row _ _ _ _ _ _ := r in erefl.

HB.instance Definition _ := Equality.copy row (can_type row_tupleK).

Definition set_Class (c : option string) (r : row) : row :=
  Row c (Name r) (Account r) (Symbol r) (Value r) (Pct r).
Definition set_Name (n : option string) (r : row) : row :=
  Row (Class r) n (Account r) (Symbol r) (Value r) (Pct r).

(** Asset map [amdf]: columns [Name], [Class], [%]. *)
Record asset_entry : Type := AssetEntry {
  am_Name : option string;
  am_Class : option string;
  am_Pct : option string
}.

Definition asset_to_tuple (e : asset_entry) := (am_Name e, am_Class e, am_Pct e).
Definition tuple_to_asset (t : option string * option string * option string)
    : asset_entry :=
  let: (n, c, p) := t in AssetEntry n c p.

Definition asset_tupleK : cancel asset_to_tuple tuple_to_asset :=
  fun e => let: AssetEntry _ _ _ := e in erefl.

HB.instance Definition _ := Equality.copy asset_entry (can_type asset_tupleK).

(** Class map [cmdf]: columns [Class], [ClassMap], [Order]. *)
Record class_entry : Type := ClassEntry {
  cm_Class : option string;
  cm_ClassMap : option string;
  cm_Order : option Z
}.

Definition class_to_tuple (e : class_entry) :=
  (cm_Class e, cm_ClassMap e, cm_Order e).
Definition tuple_to_class (t : option string * option string * option Z)
    : class_entry :=
  let: (c, m, o) := t in ClassEntry c m o.

Definition class_tupleK : cancel class_to_tuple tuple_to_class :=
  fun e => let: ClassEntry _ _ _ := e in erefl.

HB.instance Definition _ := Equality.copy class_entry (can_type class_tupleK).

(** ** Python dictionaries built by [dict(zip(keys, values))] *)

Section Dict.
Variables (K : eqType) (V : Type).

Definition dict := seq (K * V).

(** [d[k] = v]: overwrite in place when the key is present, append otherwise. *)
Fixpoint dict_set (d : dict) (k : K) (v : V) : dict :=
  match d with
  | [::] => [:: (k, v)]
  | (k', v') :: d' =>
      if k' == k then (k, v) :: d' else (k', v') :: dict_set d' k v
  end.

Fixpoint dict_get (d : dict) (k : K) : option V :=
  match d with
  | [::] => None
  | (k', v') :: d' => if k' == k then Some v' else dict_get d' k
  end.

(** [dict(pairs)]: the pairs are inserted in order, so the last one wins. *)
Definition dict_of (kvs : seq (K * V)) : dict :=
  foldl (fun d kv => dict_set d kv.1 kv.2) [::] kvs.

End Dict.

(** [Series.map(d)]: a value that is no key of [d] is mapped to null. *)
Definition series_map (K : eqType) (V : Type) (d : dict K (option V))
    (k : K) : option V :=
  if dict_get d k is Some v then v else None.

(** ** String matching *)

Definition lit_Value : string := "Value"%string.
Definition lit_Subtotal : string := "Subtotal:"%string.
Definition lit_Total : string := "Total:"%string.
Definition lit_Name : string := "Name"%string.
Definition lit_None : string := "None"%string.
Definition lit_Fixed : string := "Fixed"%string.
Definition lit_Other : string := "Other"%string.

(** The alternatives of [re.compile(r"(UNITED STATES TREAS|CPN|NTS)")]. *)
Definition fixed_alternatives : seq string :=
  [:: "UNITED STATES TREAS"%string; "CPN"%string; "NTS"%string].

(** A match of the alternation anchored at the start of [s]. *)
Definition match_here (alts : seq string) (s : string) : bool :=
  has (fun lit => String.prefix lit s) alts.

(** [pattern.search(s)] as a truth value: try every start position. *)
Fixpoint re_search (alts : seq string) (s : string) : bool :=
  match_here alts s ||
  (if s is String _ s' then re_search alts s' else false).

Definition fixed_regex_search (s : string) : bool :=
  re_search fixed_alternatives s.

(** ** csv_post_process *)

(** [vadf.insert(0, "Class", vadf.Value.where(vadf.Value == "Value", None))]
    followed by the renaming of [Account Name] and [Fund Name]. *)
Definition insert_Class (r : raw_row) : row :=
  Row (if raw_Value r == Some (Str lit_Value) then Some lit_Value else None)
      (raw_FundName r) (raw_AccountName r) (raw_Symbol r) (raw_Value r)
      (raw_Pct r).

(** [vadf.loc[vadf.Name.isnull(), "Class"] = vadf["Account"]] *)
Definition account_to_Class (r : row) : row :=
  if Name r is None then set_Class (Account r) r else r.

(** [vadf["Class"] = vadf["Class"].ffill()]: a scan carrying the last
    non-null value seen. *)
Fixpoint ffill_Class (last : option string) (s : seq row) : seq row :=
  match s with
  | [::] => [::]
  | r :: s' =>
      let c := if Class r is Some _ then Class r else last in
      set_Class c r :: ffill_Class c s'
  end.

(** [vadf.dropna(subset=["Value"]).reset_index(drop=True)] *)
Definition dropna_Value (s : seq row) : seq row :=
  [seq r <- s | Value r != None].

Definition csv_post_process (vadf : seq raw_row) : seq row :=
  let vadf := [seq insert_Class r | r <- vadf] in
  let vadf := [seq account_to_Class r | r <- vadf] in
  let vadf := ffill_Class None vadf in
  dropna_Value vadf.

(** ** post_process *)

Definition is_subtotal_or_total (r : row) : bool :=
  (Symbol r == Some lit_Subtotal) || (Symbol r == Some lit_Total).

(** Step 1: null out [Class] on Subtotal and Total rows. *)
Definition null_total (r : row) : row :=
  if is_subtotal_or_total r then set_Class None r else r.

Definition null_totals (vadf : seq row) : seq row :=
  [seq null_total r | r <- vadf].

(** [vadf["Name"] = vadf["Name"].fillna("None")] *)
Definition fillna_Name (r : row) : row :=
  if Name r is None then set_Name (Some lit_None) r else r.

(** The lambda applied to every row:
    ["Fixed" if fixed_regex.search(row.Name) else row.Class]; it is run
    on names that [fillna] has already made non-null. *)
Definition fixed_or_Class (r : row) : option string :=
  if (if Name r is Some n then fixed_regex_search n else false)
  then Some lit_Fixed else Class r.

(** Step 2, the body of [if fixed:]. *)
Definition fixed_step (vadf : seq row) : seq row :=
  let vadf := [seq fillna_Name r | r <- vadf] in
  [seq set_Class (fixed_or_Class r) r | r <- vadf].

Definition class_dict (cmdf : seq class_entry) : dict _ (option string) :=
  dict_of [seq (cm_Class e, cm_ClassMap e) | e <- cmdf].

(** Step 3:
    [vadf.loc[vadf["Class"].isin(cmdf.Class), "Class"] =
       vadf["Class"].map(dict(zip(cmdf.Class, cmdf.ClassMap)))] *)
Definition remap_Class (cmdf : seq class_entry) (r : row) : row :=
  if Class r \in [seq cm_Class e | e <- cmdf]
  then set_Class (series_map (class_dict cmdf) (Class r)) r
  else r.

Definition class_map_step (cmdf : seq class_entry) (vadf : seq row) : seq row :=
  [seq remap_Class cmdf r | r <- vadf].

Definition asset_dict (amdf : seq asset_entry) : dict _ (option string) :=
  dict_of [seq (am_Name e, am_Class e) | e <- amdf].

(** Step 4:
    [vadf.loc[vadf["Name"].isin(amdf.Name), "Class"] =
       vadf["Name"].map(dict(zip(amdf.Name, amdf.Class)))] *)
Definition remap_asset (amdf : seq asset_entry) (r : row) : row :=
  if Name r \in [seq am_Name e | e <- amdf]
  then set_Class (series_map (asset_dict amdf) (Name r)) r
  else r.

Definition asset_map_step (amdf : seq asset_entry) (vadf : seq row) : seq row :=
  [seq remap_asset amdf r | r <- vadf].

(** The frame [vadf] as [post_process] leaves it (it is mutated in place
    and read again by [write_results]). *)
Definition post_process (vadf : seq row) (cmdf : seq class_entry)
    (amdf : seq asset_entry) (fixed : bool) : seq row :=
  let vadf := null_totals vadf in
  let vadf := if fixed then fixed_step vadf else vadf in
  let vadf := class_map_step cmdf vadf in
  asset_map_step amdf vadf.

(** What [post_process] prints. *)
Definition post_process_stdout (fixed quiet : bool) : seq string :=
  if fixed && ~~ quiet then [:: "Fixed mode"%string] else [::].

(** ** write_results *)

(** A row of the candidates frame [odf]: columns [Name], [Class], [%]. *)
Record candidate : Type := Candidate {
  cand_Name : option string;
  cand_Class : option string;
  cand_Pct : Q
}.

(** What one call of [write_results] hands to [to_csv], and what it
    prints, for a call that reaches its [to_csv] calls; the frames on
    which the candidates selection raises first are set apart by
    [reports_written] below. *)
Record results : Type := Results {
  candidates_csv : option (string * seq candidate);
  report_csv : string * seq row;
  alloc_csv : string * seq row;
  results_stdout : seq string
}.

(** [date_suffix]; [now_strftime] stands for [datetime.now().strftime]. *)
Definition date_suffix_of (now_strftime : string -> string) (date_on : bool)
    (date_format : string) : string :=
  if date_on then ("-" ++ now_strftime date_format)%string else ""%string.

(** [vadf.Class.str.startswith("Other")], null on a null [Class]. *)
Definition startswith_Other (r : row) : option bool :=
  omap (String.prefix lit_Other) (Class r).

(** [vadf.dropna(subset=["Class"])[vadf.Class.str.startswith("Other").dropna()]]:
    the rows with a non-null [Class], indexed by the non-null entries of
    the mask. *)
Definition other_rows (vadf : seq row) : seq row :=
  [seq r <- [seq r <- vadf | Class r != None]
         | startswith_Other r == Some true].

(** [odf]: the selection projected on [["Name", "Class"]]. *)
Definition candidates_of (vadf : seq row) : seq (option string * option string) :=
  [seq (Name r, Class r) | r <- other_rows vadf].

(** [odf["%"] = 1.0] *)
Definition add_pct (odf : seq (option string * option string)) : seq candidate :=
  [seq Candidate nc.1 nc.2 (Qmake 1 1) | nc <- odf].

(** The rows removed before sorting: headers, subtotals and totals. *)
Definition is_structural (r : row) : bool :=
  [|| Symbol r == Some lit_Subtotal, Symbol r == Some lit_Total
    | Name r == Some lit_Name].

Definition drop_structural (vadf : seq row) : seq row :=
  [seq r <- vadf | ~~ is_structural r].

(** [cmdf.Order.notnull().values.sum() > 0] *)
Definition has_order (cmdf : seq class_entry) : bool :=
  0 < count (fun e => cm_Order e != None) cmdf.

Definition order_dict (cmdf : seq class_entry) : dict _ (option Z) :=
  dict_of [seq (cm_ClassMap e, cm_Order e) | e <- cmdf].

(** The [key=] of the first [sort_values] call, on one cell. *)
Definition order_key (cmdf : seq class_entry) (r : row) : option Z :=
  series_map (order_dict cmdf) (Class r).

(** Ascending order of [sort_values] with the default [na_position="last"]:
    null keys come after every other key. *)
Definition na_last (T : Type) (le : rel T) : rel (option T) :=
  fun a b =>
    match a, b with
    | Some x, Some y => le x y
    | _, None => true
    | None, Some _ => false
    end.

(** [sort_values(by=["Class"], kind="mergesort", key=...)] and
    [sort_values(by=["Class"], kind="mergesort")]. *)
Definition sort_by_order (cmdf : seq class_entry) (vadf : seq row) : seq row :=
  sort (relpre (order_key cmdf) (na_last Z.leb)) vadf.

Definition sort_by_Class (vadf : seq row) : seq row :=
  sort (relpre Class (na_last String.leb)) vadf.

Definition sorted_alloc (cmdf : seq class_entry) (vadf : seq row) : seq row :=
  let vadf := drop_structural vadf in
  if has_order cmdf then sort_by_order cmdf vadf else sort_by_Class vadf.

Definition write_results (now_strftime : string -> string) (vadf : seq row)
    (cmdf : seq class_entry) (quiet date_on : bool) (date_format : string)
    : results :=
  let date_suffix := date_suffix_of now_strftime date_on date_format in
  let odf := candidates_of vadf in
  let odf_name := ("Asset-Map-Candidates" ++ date_suffix ++ ".csv")%string in
  let rep_name := ("out/Van-Alloc-Rep" ++ date_suffix ++ ".csv")%string in
  let alloc_name := ("out/Van-Alloc" ++ date_suffix ++ ".csv")%string in
  Results
    (if 0 < size odf then Some (odf_name, add_pct odf) else None)
    (rep_name, vadf)
    (alloc_name, sorted_alloc cmdf vadf)
    ((if (0 < size odf) && ~~ quiet
      then [:: ("Outputting 'Other' Assets as '" ++ odf_name ++ "'")%string]
      else [::]) ++
     (if quiet then [::] else
      [:: ("Outputting allocations as csv report: " ++ rep_name)%string;
          ("Outputting sorted allocations without totals as csv: "
             ++ alloc_name)%string])).

(** The CSV branch of [main] once the three input frames are loaded, for
    a run that reaches the end: on a frame without rows the fixed-income
    step raises, and on a Class column without any string the candidates
    selection does; [reports_written] excludes both. *)
Definition main_csv (now_strftime : string -> string) (vadf : seq raw_row)
    (cmdf : seq class_entry) (amdf : seq asset_entry)
    (fixed quiet date_on : bool) (date_format : string) : results :=
  let vadf := csv_post_process vadf in
  let vadf := post_process vadf cmdf amdf fixed in
  write_results now_strftime vadf cmdf quiet date_on date_format.

(** ** read_asset_map *)

(** An untyped frame as [pd.read_csv] returns it. *)
Record frame : Type := Frame {
  columns : seq string;
  data : seq (seq (option string))
}.

Inductive exn : Type :=
  | FileNotFoundError
  | KeyError (missing : seq string)
  | OtherError (msg : string).

(** [df[cols]]: the listed columns in the listed order, [KeyError] when
    one of them is absent. *)
Definition getitem_columns (cols : seq string) (df : frame) : exn + frame :=
  if [seq c <- cols | c \notin columns df] is c :: cs
  then inl (KeyError (c :: cs))
  else inr (Frame cols
              [seq [seq nth None r (index c (columns df)) | c <- cols]
              | r <- data df]).

Definition asset_map_columns : seq string :=
  [:: "Name"%string; "Class"%string; "%"%string].

(** The result pairs what was printed with the value returned or the
    exception raised; [read_csv] stands for [pd.read_csv] on the file
    system of the run. *)
Definition read_asset_map (read_csv : string -> exn + frame)
    (asset_map_path : string) (quiet : bool) : seq string * (exn + frame) :=
  let try_body :=
    match read_csv asset_map_path with
    | inr df => getitem_columns asset_map_columns df
    | inl e => inl e
    end in
  match try_body with
  | inr asset_map_df =>
      (if quiet then [::]
       else [:: ("Read Asset map from " ++ asset_map_path)%string],
       inr asset_map_df)
  | inl FileNotFoundError =>
      ([:: ("Asset Map not found at " ++ asset_map_path ++
            " - no additional asset mapping will be done")%string],
       inr (Frame asset_map_columns [::]))
  | inl e => ([::], inl e)
  end.

(** The rows of an asset-map frame as [post_process] reads them. *)
Definition asset_entries (amdf : frame) : seq asset_entry :=
  [seq AssetEntry (nth None r 0) (nth None r 1) (nth None r 2) | r <- data amdf].

(** ** read_class_map *)

(** [pd.read_csv] renames repeated column labels, so the frames it
    delivers have distinct labels and selecting the first column with a
    label is selecting by label. *)

(** What [read_class_map] can raise: its own [ValueError], or whatever
    came out of pandas. *)
Inductive class_map_exn : Type :=
  | ClassMapValueError (msg : string)
  | ClassMapPandas (e : exn).

Definition class_map_columns : seq string :=
  [:: "Class"%string; "ClassMap"%string; "Order"%string].

(** The hard-coded frame of the [except] branch; its Order cells are
    strings. *)
Definition default_class_map : frame :=
  Frame class_map_columns
    [:: [:: Some "U.S. stocks & stock funds"%string;
            Some "U.S. stocks"%string; Some "3"%string];
        [:: Some "International stocks & stock funds"%string;
            Some "Intl stocks"%string; Some "4"%string];
        [:: Some "Other stocks"%string; Some "Other stocks"%string;
            Some "6"%string];
        [:: Some "U.S. bonds & bond funds"%string; Some "U.S. bonds"%string;
            Some "1"%string];
        [:: Some "International bonds & bond funds"%string;
            Some "Intl bonds"%string; Some "2"%string];
        [:: Some "Other bonds"%string; Some "Other bonds"%string;
            Some "5"%string];
        [:: Some "Short term reserves"%string; Some "Cash"%string;
            Some "0"%string];
        [:: Some "Other asset types"%string; Some "Other asset types"%string;
            Some "7"%string]].

Definition read_class_map (read_csv : string -> exn + frame)
    (class_map_path : string) (quiet : bool)
    : seq string * (class_map_exn + frame) :=
  let try_body : seq string * (class_map_exn + frame) :=
    match read_csv class_map_path with
    | inl e => ([::], inl (ClassMapPandas e))
    | inr df =>
        match getitem_columns class_map_columns df with
        | inl e => ([::], inl (ClassMapPandas e))
        | inr class_map =>
            if size (columns class_map) != 3
            then ([::],
                  inl (ClassMapValueError
                         ("Class map file at " ++ class_map_path ++
                          " has incorrect columns - " ++
                          "should be 'Class','ClassMap','Order'")%string))
            else (if quiet then [::]
                  else [:: ("Read Class map from " ++ class_map_path)%string],
                  inr class_map)
        end
    end in
  match try_body with
  | (printed, inl (ClassMapPandas FileNotFoundError)) =>
      (printed ++
       [:: ("Class Map not found at " ++ class_map_path ++
            " - falling over to hardcoded Asset Classes" ++
            "for HTML mapping.")%string],
       inr default_class_map)
  | done => done
  end.

(** ** read_csv_portfolio *)

(** What [read_csv_portfolio] can raise: the [FileNotFoundError] it
    re-raises with its own message, its own [ValueError], or whatever else
    came out of pandas. *)
Inductive portfolio_exn : Type :=
  | PortfolioFileNotFoundError (msg : string)
  | PortfolioValueError (msg : string)
  | PortfolioPandas (e : exn).

Definition columns_in : seq string :=
  [:: "Account Name"%string; "Fund Name"%string; "Symbol"%string;
      "Value"%string; "% of Portfolio"%string].

Definition columns_out : seq string :=
  [:: "Fund Name"%string; "Account Name"%string; "Symbol"%string;
      "Value"%string; "% of Portfolio"%string].

(** [read_csv_usecols path cols] stands for opening the file and calling
    [pd.read_csv(file, usecols=cols)]. *)
Definition read_csv_portfolio
    (read_csv_usecols : string -> seq string -> exn + frame)
    (csv_path : string) : portfolio_exn + frame :=
  let try_body : portfolio_exn + frame :=
    match read_csv_usecols csv_path columns_in with
    | inl e => inl (PortfolioPandas e)
    | inr df =>
        match getitem_columns columns_out df with
        | inl e => inl (PortfolioPandas e)
        | inr portfolio_data =>
            if size (columns portfolio_data) != 5
            then inl (PortfolioValueError
                        ("CSV file at " ++ csv_path ++
                         " has incorrect columns - " ++
                         "should have ['Account Name', 'Fund Name', 'Symbol', 'Value', '% of Portfolio'] columns.")%string)
            else inr portfolio_data
        end
    end in
  match try_body with
  | inl (PortfolioPandas FileNotFoundError) =>
      inl (PortfolioFileNotFoundError
             ("Vanguard Portfolio CSV file not found at " ++
              String (ascii_of_nat 34) csv_path ++
              String (ascii_of_nat 34) "")%string)
  | done => done
  end.

(** The cell of a named column in one row of a frame. *)
Definition cell_of (df : frame) (c : string) (r : seq (option string))
    : option string :=
  nth None r (index c (columns df)).

(** ** Properties named by the specification *)

(** A row is an "Other" candidate: its [Class] is non-null and starts
    with the literal prefix. *)
Definition is_other (r : row) : bool :=
  if Class r is Some c then String.prefix lit_Other c else false.

(** [s] contains one of the three literals of the fixed-income pattern. *)
Definition contains_fixed_literal (s : string) : Prop :=
  exists pre lit post,
    lit \in fixed_alternatives /\ s = (pre ++ lit ++ post)%string.

(** The name the fixed-income pattern is run on. *)
Definition name_or_None (r : row) : string := odflt lit_None (Name r).

(** The rows of the two reports. *)
Definition unsorted_report (res : results) : seq row := (report_csv res).2.
Definition sorted_report (res : results) : seq row := (alloc_csv res).2.

(** Some Order value is present in the class map. *)
Definition any_order (cmdf : seq class_entry) : bool :=
  has (fun e => cm_Order e != None) cmdf.

(** What the two passes of [fixed_step] do to one row. *)
Definition fixed_row (r : row) : row :=
  set_Class (fixed_or_Class (fillna_Name r)) (fillna_Name r).

Definition fixed_if (fixed : bool) (r : row) : row :=
  if fixed then fixed_row r else r.

(** What [post_process] does to one row. *)
Definition post_process_row (cmdf : seq class_entry) (amdf : seq asset_entry)
    (fixed : bool) (r : row) : row :=
  remap_asset amdf (remap_Class cmdf (fixed_if fixed (null_total r))).

(** ** The end-to-end scenario of the specification *)

(** An account marker row followed by the three rows under it: a header
    row (Value = "Value"), the data row and the Subtotal row, the cells
    the scenario leaves open being parameters. *)
Definition scenario_rows (macct msym mpct hname hacct hsym hpct dacct dpct
    sname sacct spct : option string) : seq raw_row :=
  [:: RawRow None macct msym None mpct;
      RawRow hname hacct hsym (Some (Str lit_Value)) hpct;
      RawRow (Some "Fund A"%string) dacct (Some "FA"%string)
        (Some (Num 100)) dpct;
      RawRow sname sacct (Some lit_Subtotal) (Some (Num 100)) spct].

Definition scenario_example : seq raw_row :=
  scenario_rows (Some "Brokerage"%string) None None
    (Some "Fund Name"%string) (Some "Account Name"%string)
    (Some "Symbol"%string) (Some "% of Portfolio"%string)
    (Some "Brokerage"%string) (Some "100%"%string)
    None None (Some "100%"%string).

(** The class forward-filled onto the header row of the scenario. *)
Definition header_fill (macct hname hacct : option string) : option string :=
  if hname is Some _ then Some lit_Value
  else if hacct is Some _ then hacct else macct.

(** ** Sample frames *)

Definition treasury_row : row :=
  Row (Some "U.S. bonds & bond funds"%string)
      (Some "UNITED STATES TREAS BILL"%string) (Some "Brokerage"%string)
      (Some "912796"%string) (Some (Num 5000)) (Some "5%"%string).

Definition munis_entry : asset_entry :=
  AssetEntry (Some "UNITED STATES TREAS BILL"%string) (Some "Munis"%string)
             (Some "1.0"%string).

Definition bonds_entry : class_entry :=
  ClassEntry (Some "U.S. bonds & bond funds"%string)
             (Some "U.S. bonds"%string) (Some 1%Z).

Definition cd_row : row :=
  Row (Some "Short term reserves"%string) (Some "BANK CD CPN 4.5%"%string)
      (Some "Brokerage"%string) (Some "06417"%string) (Some (Num 1000))
      (Some "1%"%string).

Definition fund_row : row :=
  Row (Some "U.S. stocks & stock funds"%string)
      (Some "Total Stock Market Index"%string) (Some "IRA"%string)
      (Some "VTSAX"%string) (Some (Num 2000)) (Some "2%"%string).

Definition other_row : row :=
  Row (Some "Other asset types"%string) (Some "Gold Trust"%string)
      (Some "Brokerage"%string) (Some "GLD"%string) (Some (Num 300))
      (Some "3%"%string).

Definition stocks_entry : class_entry :=
  ClassEntry (Some "U.S. stocks & stock funds"%string)
             (Some "U.S. stocks & stock funds"%string) (Some 0%Z).

Definition unordered_entry : class_entry :=
  ClassEntry (Some "U.S. bonds & bond funds"%string)
             (Some "U.S. bonds"%string) None.

Definition nameless_total : row :=
  Row (Some "U.S. stocks"%string) None None (Some "Total:"%string)
      (Some (Num 100)) None.

Definition nameless_row : row :=
  Row (Some "Short term reserves"%string) None (Some "Brokerage"%string)
      (Some "VMFXX"%string) (Some (Num 50)) None.

Definition orphan_fund : raw_row :=
  RawRow (Some "Fund A"%string) (Some "Brokerage"%string) (Some "FA"%string)
         (Some (Num 100)) (Some "100%"%string).

Definition subtotal_row : row :=
  Row (Some "U.S. stocks & stock funds"%string) None None
      (Some "Subtotal:"%string) (Some (Num 2000)) (Some "2%"%string).

(** ** Vocabulary of the further properties *)

(** The row [csv_post_process] builds from a raw row before the forward
    fill: [Class] inserted, columns renamed, [Account] copied on a null
    [Name]. *)
Definition seeded (r : raw_row) : row := account_to_Class (insert_Class r).

(** The [Class] a raw row carries into the forward fill. *)
Definition seed (r : raw_row) : option string := Class (seeded r).

Definition has_value (r : raw_row) : bool := raw_Value r != None.

(** The cells [csv_post_process] reads from the file, by row. *)
Definition raw_cells (r : raw_row) :=
  (raw_FundName r, raw_AccountName r, raw_Symbol r, raw_Value r, raw_Pct r).
Definition row_cells (r : row) :=
  (Name r, Account r, Symbol r, Value r, Pct r).

(** What the class-map step does to one [Class] value. *)
Definition remap_class_value (cmdf : seq class_entry) (c : option string)
    : option string :=
  if c \in [seq cm_Class e | e <- cmdf] then series_map (class_dict cmdf) c
  else c.

(** No renaming chain: a ClassMap value that is itself a Class key is
    renamed to itself. *)
Definition chain_free (cmdf : seq class_entry) : bool :=
  all (fun e => remap_class_value cmdf (cm_ClassMap e) == cm_ClassMap e) cmdf.

(** Sample raw rows: an account marker, a data row under it, and a
    second marker whose Account cell is empty. *)
Definition marker_raw : raw_row :=
  RawRow None (Some "U.S. stocks & stock funds"%string) None None None.

Definition fund_raw : raw_row :=
  RawRow (Some "Total Stock Market Index"%string) (Some "IRA"%string)
         (Some "VTSAX"%string) (Some (Num 2000)) (Some "2%"%string).

Definition blank_raw : raw_row := RawRow None None None None None.

(** Sample class-map entries renamed to themselves, as the built-in
    class map does for its "Other" classes. *)
Definition other_stocks_entry : class_entry :=
  ClassEntry (Some "Other stocks"%string) (Some "Other stocks"%string)
             (Some 6%Z).

Definition fixed_entry : class_entry :=
  ClassEntry (Some "Fixed"%string) (Some "U.S. bonds"%string) (Some 1%Z).

(** Sample rows of a class the class map does not order. *)
Definition crypto_row : row :=
  Row (Some "Crypto"%string) (Some "Bitcoin Trust"%string)
      (Some "Brokerage"%string) (Some "GBTC"%string) (Some (Num 10))
      (Some "1%"%string).

(** Sample frames: an asset-map file with its columns in another order
    and one column more, and a file lacking the Name column. *)
Definition shuffled_asset_file : frame :=
  Frame [:: "%"%string; "Note"%string; "Class"%string; "Name"%string]
    [:: [:: Some "1.0"%string; Some "x"%string; Some "Munis"%string;
            Some "UNITED STATES TREAS BILL"%string]].

Definition nameless_asset_file : frame :=
  Frame [:: "Class"%string; "%"%string]
    [:: [:: Some "Munis"%string; Some "1.0"%string]].

(** A portfolio file as pandas delivers it under [usecols]: the columns
    in file order. *)
Definition portfolio_file : frame :=
  Frame columns_in
    [:: [:: Some "IRA"%string; Some "Total Stock Market Index"%string;
            Some "VTSAX"%string; Some "2000"%string; Some "2%"%string]].

(** ** The report stage in the words of the specification *)

(** [write_results] reaches its [to_csv] calls when the Class column
    holds at least one string.  On a Class column that is entirely null
    the [.str] accessor of the candidates selection raises and neither
    report is written; the properties of the two reports are stated for
    the frames on which they are written. *)
Definition reports_written (vadf : seq row) : bool :=
  has (fun r => Class r != None) vadf.

(** A structural row: a subtotal, a total, or a stray header. *)
Definition structural_row (r : row) : bool :=
  [|| Symbol r == Some "Subtotal:"%string, Symbol r == Some "Total:"%string
    | Name r == Some "Name"%string].

(** The Order the class map gives a class: the Order field of the last
    entry whose ClassMap is that class, null when there is none. *)
Definition class_order (cmdf : seq class_entry) (c : option string)
    : option Z :=
  if [seq e <- cmdf | cm_ClassMap e == c] is e0 :: es
  then cm_Order (last e0 es) else None.

(** [s] is in ascending order of [key]: whatever stands before a row with
    a key has a key too, and a smaller or equal one.  Rows without a key
    can only stand at the end. *)
Definition ascending (K : Type) (le : K -> K -> bool)
    (key : row -> option K) (s : seq row) : Prop :=
  forall (r0 : row) (i j : nat) (b : K),
    i < j -> j < size s -> key (nth r0 s j) = Some b ->
    exists2 a, key (nth r0 s i) = Some a & le a b.

(** Sample frames for the report stage: holdings with a subtotal, a total
    and a stray header among them. *)
Definition header_row : row :=
  Row (Some "Value"%string) (Some "Name"%string) (Some "Account"%string)
      (Some "Symbol"%string) (Some (Str "Value")) (Some "%"%string).

Definition report_frame : seq row :=
  [:: Row (Some "U.S. bonds"%string) (Some "Total Bond Market"%string)
        (Some "IRA"%string) (Some "VBTLX"%string) (Some (Num 500))
        (Some "5%"%string);
      Row None None None (Some "Subtotal:"%string) (Some (Num 500)) None;
      header_row;
      Row (Some "Crypto"%string) (Some "Bitcoin Trust"%string)
        (Some "Brokerage"%string) (Some "GBTC"%string) (Some (Num 10))
        (Some "1%"%string);
      Row (Some "U.S. stocks & stock funds"%string)
        (Some "Total Stock Market Index"%string) (Some "IRA"%string)
        (Some "VTSAX"%string) (Some (Num 2000)) (Some "2%"%string);
      Row (Some "U.S. bonds"%string) (Some "Short-Term Treasury"%string)
        (Some "IRA"%string) (Some "VFISX"%string) (Some (Num 300))
        (Some "3%"%string);
      Row None None None (Some "Total:"%string) (Some (Num 2810)) None].

(** A class map with an Order for stocks and bonds, and one without any. *)
Definition ordered_class_map : seq class_entry :=
  [:: ClassEntry (Some "U.S. bonds & bond funds"%string)
        (Some "U.S. bonds"%string) (Some 1%Z);
      ClassEntry (Some "U.S. stocks & stock funds"%string)
        (Some "U.S. stocks & stock funds"%string) (Some 0%Z)].

Definition unordered_class_map : seq class_entry :=
  [:: ClassEntry (Some "U.S. bonds & bond funds"%string)
        (Some "U.S. bonds"%string) None].

(** * Lemmas *)

(** ** Dictionaries *)

Section DictLemmas.
Variables (K : eqType) (V : Type).
Implicit Types (d : dict K V) (kvs : seq (K * V)) (k : K) (v : V).

Lemma dict_get_set d k v k' :
  dict_get (dict_set d k v) k' = if k == k' then Some v else dict_get d k'.
Proof.
elim: d => [|[k1 v1] d IH] /=; first by [].
case: (k1 =P k) => [->|/eqP ne] /=; first by case: ifP.
rewrite IH; case: (k1 =P k') => [e|//]; case: (k =P k') => [e'|//].
by rewrite e e' eqxx in ne.
Qed.

Lemma dict_get_cat (s1 s2 : seq (K * V)) k :
  dict_get (s1 ++ s2) k =
  if dict_get s1 k is Some v then Some v else dict_get s2 k.
Proof. by elim: s1 => [|[k1 v1] s1 IH] //=; case: ifP. Qed.

Lemma dict_get_foldl d kvs k :
  dict_get (foldl (fun d kv => dict_set d kv.1 kv.2) d kvs) k =
  if dict_get (rev kvs) k is Some v then Some v else dict_get d k.
Proof.
elim: kvs d => [|[k1 v1] kvs IH] d //=.
rewrite IH rev_cons -cats1 dict_get_set dict_get_cat /=.
by case: (dict_get (rev kvs) k) => //; case: ifP.
Qed.

(** Last write wins: looking a key up in [dict(kvs)] finds the last pair
    of [kvs] that carries it. *)
Lemma dict_get_of kvs k : dict_get (dict_of kvs) k = dict_get (rev kvs) k.
Proof. by rewrite /dict_of dict_get_foldl /=; case: (dict_get _ _). Qed.

Lemma dict_get_notin kvs k :
  k \notin [seq kv.1 | kv <- kvs] -> dict_get kvs k = None.
Proof.
elim: kvs => [|[k1 v1] kvs IH] //=; rewrite inE negb_or eq_sym.
by case/andP => /negbTE -> /IH.
Qed.

Lemma dict_get_in kvs k :
  k \in [seq kv.1 | kv <- kvs] -> exists v, dict_get kvs k = Some v.
Proof.
elim: kvs => [|[k1 v1] kvs IH] //=; rewrite inE eq_sym.
by case: (k1 =P k) => [_ _|_ /IH //]; exists v1.
Qed.

Lemma dict_of_in kvs k :
  k \in [seq kv.1 | kv <- kvs] -> exists v, dict_get (dict_of kvs) k = Some v.
Proof.
by move=> kin; rewrite dict_get_of; apply: dict_get_in; rewrite map_rev mem_rev.
Qed.

Lemma dict_get_last (s1 s2 : seq (K * V)) k v :
  k \notin [seq kv.1 | kv <- s2] ->
  dict_get (dict_of (s1 ++ (k, v) :: s2)) k = Some v.
Proof.
move=> nin; rewrite dict_get_of rev_cat rev_cons -cats1 -catA dict_get_cat.
by rewrite dict_get_notin ?map_rev ?mem_rev //= eqxx.
Qed.

End DictLemmas.

Section DictValues.
Variables (K V : eqType).
Implicit Types (kvs : seq (K * V)) (k : K) (v : V).

Lemma dict_get_some kvs k v : dict_get kvs k = Some v -> (k, v) \in kvs.
Proof.
elim: kvs => [|[k1 v1] kvs IH] //=; rewrite inE.
case: (k1 =P k) => [-> [->]|_ /IH ->]; first by rewrite eqxx.
by rewrite orbT.
Qed.

(** Every value a dictionary returns was paired with its key in the source. *)
Lemma dict_of_some kvs k v :
  dict_get (dict_of kvs) k = Some v -> (k, v) \in kvs.
Proof. by rewrite dict_get_of => /dict_get_some; rewrite mem_rev. Qed.

End DictValues.

(** ** The orders used by [sort_values] *)

Lemma Zleb_total : total Z.leb.
Proof. by move=> x y; apply/orP; case: (Z.leb_spec x y); [left | right; apply/Z.leb_le; lia]. Qed.

Lemma Zleb_trans : transitive Z.leb.
Proof. by move=> y x z /Z.leb_le xy /Z.leb_le yz; apply/Z.leb_le; lia. Qed.

Lemma ascii_compareP (a b : ascii) :
  CompareSpec (a = b) (N.lt (N_of_ascii a) (N_of_ascii b))
              (N.lt (N_of_ascii b) (N_of_ascii a)) (Ascii.compare a b).
Proof.
rewrite /Ascii.compare; case: (N.compare_spec (N_of_ascii a) (N_of_ascii b)).
- move=> e; apply: CompEq.
  by rewrite -(ascii_N_embedding a) -(ascii_N_embedding b) e.
- exact: CompLt.
- exact: CompGt.
Qed.

Lemma string_leb_total : total String.leb.
Proof. by move=> x y; apply/orP; exact: String.leb_total. Qed.

Lemma string_leb_trans : transitive String.leb.
Proof.
rewrite /String.leb => y x z.
elim: y x z => [|b y IH] [|a x] [|c z] //=.
case: (ascii_compareP a b) => [e|ab|ab] //;
  case: (ascii_compareP b c) => [e'|bc|bc] //;
  case: (ascii_compareP a c) => [e''|ac|ac] //; subst; try lia; exact: IH.
Qed.

Section NaLast.
Variables (T : Type) (le : rel T).

Lemma na_last_total : total le -> total (na_last le).
Proof. by move=> tot [x|] [y|] //=. Qed.

Lemma na_last_trans : transitive le -> transitive (na_last le).
Proof. by move=> tr [y|] [x|] [z|] //=; exact: tr. Qed.

End NaLast.

Lemma relpre_total (T U : Type) (f : T -> U) (le : rel U) :
  total le -> total (relpre f le).
Proof. by move=> tot x y; exact: tot. Qed.

Lemma relpre_trans (T U : Type) (f : T -> U) (le : rel U) :
  transitive le -> transitive (relpre f le).
Proof. by move=> tr y x z; exact: tr. Qed.

(** A stable sort keeps, for each key, the rows carrying it in their
    prior order. *)
Lemma sort_key_stable (T U : eqType) (f : T -> U) (le : rel U)
    (k : U) (s : seq T) :
  total le -> transitive le ->
  [seq x <- sort (relpre f le) s | f x == k] = [seq x <- s | f x == k].
Proof.
move=> tot tr; have tot' : total (relpre f le) by exact: relpre_total.
have tr' : transitive (relpre f le) by exact: relpre_trans.
rewrite filter_sort //; apply: sorted_sort => //.
have refl x : le x x by case/orP: (tot x x).
elim: s => [|x s IH] //=; case: ifP => // /eqP fx.
rewrite /= path_sortedE // IH andbT; apply/allP => y; rewrite mem_filter => /andP [/eqP fy _].
by rewrite /= fx fy.
Qed.

(** ** String matching *)

Lemma prefixP (lit s : string) :
  reflect (exists post, s = (lit ++ post)%string) (String.prefix lit s).
Proof.
apply: (iffP idP).
- elim: lit s => [|a lit IH] [|b s] //=; try by [exists ""%string | eexists].
  case: (ascii_dec a b) => [<-|//] /IH [post ->].
  by exists post.
- case=> post ->; elim: lit => [|a lit IH] /=; first by case: post.
  by case: (ascii_dec a a).
Qed.

Lemma re_searchP (alts : seq string) (s : string) :
  reflect (exists pre lit post,
             lit \in alts /\ s = (pre ++ lit ++ post)%string)
          (re_search alts s).
Proof.
apply: (iffP idP).
- elim: s => [|a s IH] /=.
    rewrite orbF => /hasP [lit lin /prefixP [post ->]].
    by exists ""%string, lit, post.
  case/orP => [/hasP [lit lin /prefixP [post ->]]|/IH [pre [lit [post [lin ->]]]]].
    by exists ""%string, lit, post.
  by exists (String a pre), lit, post.
- case=> pre [lit [post [lin ->]]]; elim: pre => [|a pre IH] /=.
    have mh: match_here alts (lit ++ post)%string.
      by apply/hasP; exists lit => //; apply/prefixP; exists post.
    by case: (lit ++ post)%string mh => [|b t] /= ->.
  by rewrite IH orbT.
Qed.

(** The fixed-income pattern is an unanchored search for one of its three
    literals. *)
Lemma fixed_regex_searchP (s : string) :
  reflect (contains_fixed_literal s) (fixed_regex_search s).
Proof. exact: re_searchP. Qed.

(** The match is case-sensitive, and the default name never matches. *)
Example fixed_regex_examples :
  [/\ fixed_regex_search "US CPN 2030"%string,
      fixed_regex_search "UNITED STATES TREAS BILL"%string,
      fixed_regex_search "xNTSx"%string,
      ~~ fixed_regex_search "us cpn 2030"%string
    & ~~ fixed_regex_search lit_None].
Proof. by []. Qed.

(** ** post_process, row by row *)

Lemma fixed_stepE (vadf : seq row) : fixed_step vadf = [seq fixed_row r | r <- vadf].
Proof. by rewrite /fixed_step -map_comp. Qed.

Lemma post_processE vadf cmdf amdf fixed :
  post_process vadf cmdf amdf fixed =
  [seq post_process_row cmdf amdf fixed r | r <- vadf].
Proof.
rewrite /post_process /asset_map_step /class_map_step /null_totals.
by case: fixed; rewrite ?fixed_stepE -!map_comp.
Qed.

Lemma size_post_process vadf cmdf amdf fixed :
  size (post_process vadf cmdf amdf fixed) = size vadf.
Proof. by rewrite post_processE size_map. Qed.

Lemma nth_post_process r0 vadf cmdf amdf fixed i :
  i < size vadf ->
  nth r0 (post_process vadf cmdf amdf fixed) i =
  post_process_row cmdf amdf fixed (nth r0 vadf i).
Proof. by move=> lt_i; rewrite post_processE (nth_map r0). Qed.

Lemma Name_null_total r : Name (null_total r) = Name r.
Proof. by rewrite /null_total; case: ifP. Qed.

Lemma Name_remap_Class cmdf r : Name (remap_Class cmdf r) = Name r.
Proof. by rewrite /remap_Class; case: ifP. Qed.

Lemma Name_remap_asset amdf r : Name (remap_asset amdf r) = Name r.
Proof. by rewrite /remap_asset; case: ifP. Qed.

Lemma Name_fixed_row r : Name (fixed_row r) = Some (name_or_None r).
Proof. by case: r => c [n|]. Qed.

Lemma Class_fixed_row r :
  Class (fixed_row r) =
  if fixed_regex_search (name_or_None r) then Some lit_Fixed else Class r.
Proof. by case: r => c [n|]. Qed.

Lemma Symbol_null_total r : Symbol (null_total r) = Symbol r.
Proof. by rewrite /null_total; case: ifP. Qed.

Lemma Symbol_remap_Class cmdf r : Symbol (remap_Class cmdf r) = Symbol r.
Proof. by rewrite /remap_Class; case: ifP. Qed.

Lemma Symbol_remap_asset amdf r : Symbol (remap_asset amdf r) = Symbol r.
Proof. by rewrite /remap_asset; case: ifP. Qed.

Lemma Symbol_fixed_row r : Symbol (fixed_row r) = Symbol r.
Proof. by case: r => c [n|]. Qed.

Lemma Name_fixed_if fixed r :
  Name (fixed_if fixed r) = if fixed then Some (name_or_None r) else Name r.
Proof. by case: fixed; rewrite /fixed_if // Name_fixed_row. Qed.

Lemma Class_fixed_if fixed r :
  Class (fixed_if fixed r) =
  if fixed && fixed_regex_search (name_or_None r) then Some lit_Fixed
  else Class r.
Proof. by case: fixed; rewrite /fixed_if // Class_fixed_row. Qed.

Lemma Symbol_fixed_if fixed r : Symbol (fixed_if fixed r) = Symbol r.
Proof. by case: fixed; rewrite /fixed_if // Symbol_fixed_row. Qed.

Lemma Symbol_post_process_row cmdf amdf fixed r :
  Symbol (post_process_row cmdf amdf fixed r) = Symbol r.
Proof.
rewrite /post_process_row Symbol_remap_asset Symbol_remap_Class.
by rewrite Symbol_fixed_if Symbol_null_total.
Qed.

Lemma Name_post_process_row cmdf amdf fixed r :
  Name (post_process_row cmdf amdf fixed r) =
  if fixed then Some (name_or_None r) else Name r.
Proof.
rewrite /post_process_row Name_remap_asset Name_remap_Class Name_fixed_if.
by rewrite /name_or_None Name_null_total.
Qed.

(** * Classification precedence *)

Lemma remap_asset_last (before after : seq asset_entry) (e : asset_entry)
    (r : row) :
  am_Name e = Name r ->
  Name r \notin [seq am_Name e' | e' <- after] ->
  Class (remap_asset (before ++ e :: after) r) = am_Class e.
Proof.
move=> eN nin; rewrite /remap_asset map_cat mem_cat /= inE eN eqxx orbT /=.
rewrite /series_map /asset_dict map_cat /= eN dict_get_last //.
by rewrite -map_comp.
Qed.

(** C1: with fixed-income mode on, a row whose Name matches the
    fixed-income pattern and is the Name of an Asset Map entry ends
    [post_process] with that entry's Class.  The fixed-income step had set
    the row to "Fixed"; the asset-level mapping runs last and overrides it
    and any class-map renaming.  On a duplicate Name the entry that counts
    is the last one in the file (last write wins). *)
Theorem asset_map_entry_wins (r0 : row) (vadf : seq row)
    (cmdf : seq class_entry) (before after : seq asset_entry)
    (e : asset_entry) (i : nat) (n : string) :
  i < size vadf ->
  Name (nth r0 vadf i) = Some n ->
  fixed_regex_search n ->
  am_Name e = Some n ->
  Some n \notin [seq am_Name e' | e' <- after] ->
  Class (nth r0 (fixed_step (null_totals vadf)) i) = Some lit_Fixed /\
  Class (nth r0 (post_process vadf cmdf (before ++ e :: after) true) i)
    = am_Class e.
Proof.
move=> lt_i Nn match_n eN nin; split.
  rewrite fixed_stepE /null_totals (nth_map r0) ?size_map // (nth_map r0) //.
  by rewrite Class_fixed_row /name_or_None Name_null_total Nn /= match_n.
rewrite nth_post_process // /post_process_row.
apply: remap_asset_last.
  by rewrite Name_remap_Class Name_fixed_if /name_or_None Name_null_total Nn.
by rewrite Name_remap_Class Name_fixed_if /name_or_None Name_null_total Nn.
Qed.

Lemma asset_map_entry_wins_witness :
  Class (nth treasury_row
           (post_process [:: treasury_row] [:: bonds_entry]
              ([::] ++ munis_entry :: [::]) true) 0)
  = Some "Munis"%string.
Proof.
exact: (proj2 (@asset_map_entry_wins treasury_row [:: treasury_row]
                 [:: bonds_entry] [::] [::] munis_entry 0
                 "UNITED STATES TREAS BILL"%string
                 erefl erefl erefl erefl erefl)).
Defined.

(** * The fixed-income step *)

(** C8: with fixed-income mode on, [post_process] runs the fixed-income
    step between the nulling of totals and the two remappings; that step
    sets Class to "Fixed" on exactly the rows whose Name, a null Name
    read as the string "None", contains one of UNITED STATES TREAS, CPN,
    NTS as a (case-sensitive, unanchored) substring, and leaves the Class of
    every other row as it was. *)
Theorem fixed_step_exactly_matching (r0 : row) (vadf : seq row)
    (cmdf : seq class_entry) (amdf : seq asset_entry) :
  post_process vadf cmdf amdf true =
    asset_map_step amdf (class_map_step cmdf (fixed_step (null_totals vadf)))
  /\ forall (v : seq row),
       size (fixed_step v) = size v /\
       forall i, i < size v ->
         (contains_fixed_literal (name_or_None (nth r0 v i)) ->
            Class (nth r0 (fixed_step v) i) = Some lit_Fixed) /\
         (~ contains_fixed_literal (name_or_None (nth r0 v i)) ->
            Class (nth r0 (fixed_step v) i) = Class (nth r0 v i)).
Proof.
split=> // v; rewrite fixed_stepE size_map; split=> // i lt_i.
rewrite (nth_map r0) // Class_fixed_row.
by case: fixed_regex_searchP => H; split.
Qed.

Lemma fixed_step_exactly_matching_witness :
  Class (nth cd_row (fixed_step [:: cd_row; fund_row]) 0) = Some lit_Fixed /\
  Class (nth cd_row (fixed_step [:: cd_row; fund_row]) 1) = Class fund_row.
Proof.
have [_ H] := fixed_step_exactly_matching cd_row [::] [::] [::].
have [_ H01] := H [:: cd_row; fund_row].
have [H0 _] := H01 0 erefl; have [_ H1] := H01 1 erefl.
split.
- by apply: H0; exists "BANK CD "%string, "CPN"%string, " 4.5%"%string.
- by apply: H1; move/fixed_regex_searchP.
Defined.

(** * Class-map renaming *)

Lemma remap_Class_idem (cmdf : seq class_entry) (r : row) :
  all (fun e => cm_ClassMap e \notin [seq cm_Class e' | e' <- cmdf]) cmdf ->
  remap_Class cmdf (remap_Class cmdf r) = remap_Class cmdf r.
Proof.
move=> /allP disj; rewrite {2 3}/remap_Class.
case: ifP => [kin|nin]; last by rewrite /remap_Class nin.
have: Class r \in [seq kv.1 | kv <- [seq (cm_Class e, cm_ClassMap e) | e <- cmdf]].
  by rewrite -map_comp.
case/dict_of_in => v get_v; rewrite /series_map /class_dict get_v.
have /mapP [e ein [_ ->]] := dict_of_some get_v.
by rewrite /remap_Class /= (negbTE (disj e ein)).
Qed.

(** C7: when no ClassMap value of the class map is also one of its Class
    keys, remapping a table that has been remapped once changes nothing. *)
Theorem class_map_step_idempotent (cmdf : seq class_entry) (vadf : seq row) :
  all (fun e => cm_ClassMap e \notin [seq cm_Class e' | e' <- cmdf]) cmdf ->
  class_map_step cmdf (class_map_step cmdf vadf) = class_map_step cmdf vadf.
Proof.
move=> disj; rewrite /class_map_step -map_comp.
by apply: eq_map => r /=; exact: remap_Class_idem.
Qed.

Lemma class_map_step_idempotent_witness :
  class_map_step [:: bonds_entry]
    (class_map_step [:: bonds_entry] [:: treasury_row; fund_row])
  = class_map_step [:: bonds_entry] [:: treasury_row; fund_row].
Proof.
exact: (@class_map_step_idempotent [:: bonds_entry]
          [:: treasury_row; fund_row] erefl).
Defined.

(** Without the hypothesis a chain A -> B, B -> C is followed one link per
    application. *)
Example class_map_step_chain :
  let cmdf := [:: ClassEntry (Some "A"%string) (Some "B"%string) None;
                  ClassEntry (Some "B"%string) (Some "C"%string) None] in
  let vadf := [:: Row (Some "A"%string) None None None None None] in
  [seq Class r | r <- class_map_step cmdf vadf] = [:: Some "B"%string] /\
  [seq Class r | r <- class_map_step cmdf (class_map_step cmdf vadf)]
    = [:: Some "C"%string].
Proof. by []. Qed.

(** * The reports *)

Lemma has_orderE (cmdf : seq class_entry) : has_order cmdf = any_order cmdf.
Proof. by rewrite /has_order /any_order has_count. Qed.

Lemma perm_sorted_alloc (cmdf : seq class_entry) (vadf : seq row) :
  perm_eq (sorted_alloc cmdf vadf) (drop_structural vadf).
Proof.
by rewrite /sorted_alloc /sort_by_order /sort_by_Class; case: ifP;
   rewrite perm_sort.
Qed.

(** The sort key of a row is the Order of the class-map entry whose
    ClassMap is the row's Class (the last such entry in the file). *)
Lemma order_key_entry (before after : seq class_entry) (e : class_entry)
    (r : row) :
  Class r = cm_ClassMap e ->
  cm_ClassMap e \notin [seq cm_ClassMap e' | e' <- after] ->
  order_key (before ++ e :: after) r = cm_Order e.
Proof.
move=> eC nin; rewrite /order_key /series_map /order_dict map_cat /= eC.
by rewrite dict_get_last // -map_comp.
Qed.

(** A class with no entry has a null key, which sorts last. *)
Lemma order_key_missing (cmdf : seq class_entry) (r : row) :
  Class r \notin [seq cm_ClassMap e | e <- cmdf] -> order_key cmdf r = None.
Proof.
move=> nin; rewrite /order_key /series_map dict_get_of dict_get_notin //.
by rewrite map_rev mem_rev -map_comp.
Qed.

(** The mask of [write_results] selects the structural rows. *)
Lemma is_structuralE (r : row) : is_structural r = structural_row r.
Proof. by []. Qed.

Lemma drop_structuralE (vadf : seq row) :
  drop_structural vadf = [seq r <- vadf | ~~ structural_row r].
Proof. by apply: eq_filter => r; rewrite is_structuralE. Qed.

(** The sort key is the Order field the class map gives the row's Class. *)
Lemma order_keyE (cmdf : seq class_entry) (r : row) :
  order_key cmdf r = class_order cmdf (Class r).
Proof.
rewrite /order_key /series_map /order_dict dict_get_of /class_order.
move: (Class r) => c; elim/last_ind: cmdf => [|cmdf e IH] //.
rewrite map_rcons rev_rcons filter_rcons /=.
case: (cm_ClassMap e =P c) => [_|_]; last exact: IH.
by case: [seq e' <- cmdf | _] => [|e0 es] //=; rewrite last_rcons.
Qed.

(** A frame sorted under the order of [sort_values] is ascending in the
    key, the rows without a key last. *)
Lemma sorted_ascending (K : Type) (le : rel K) (key : row -> option K)
    (s : seq row) :
  transitive le -> sorted (relpre key (na_last le)) s -> ascending le key s.
Proof.
move=> tr sorted_s r0 i j b lt_ij lt_j key_j.
have tr' : transitive (relpre key (na_last le)).
  exact/relpre_trans/na_last_trans.
have lt_i : i < size s by exact: ltn_trans lt_ij lt_j.
have := sorted_ltn_nth tr' r0 sorted_s i j lt_i lt_j lt_ij.
rewrite /= key_j; case: (key (nth r0 s i)) => [a|] // le_ab.
by exists a.
Qed.

(** C5: when [write_results] writes its reports, the sorted report holds
    exactly the rows of the unsorted report that are not structural
    (Symbol "Subtotal:" or "Total:", or Name "Name"): it is a permutation
    of them, so its row count is the unsorted count minus the structural
    rows, and it contains no structural row. *)
Theorem sorted_report_drops_structural (now_strftime : string -> string)
    (vadf : seq row) (cmdf : seq class_entry) (quiet date_on : bool)
    (date_format : string) :
  reports_written vadf ->
  [/\ perm_eq
        (sorted_report
           (write_results now_strftime vadf cmdf quiet date_on date_format))
        [seq r <- unsorted_report
                    (write_results now_strftime vadf cmdf quiet date_on
                       date_format)
        | ~~ structural_row r],
      size (sorted_report
              (write_results now_strftime vadf cmdf quiet date_on date_format))
      = size (unsorted_report
                (write_results now_strftime vadf cmdf quiet date_on
                   date_format))
        - count structural_row
            (unsorted_report
               (write_results now_strftime vadf cmdf quiet date_on
                  date_format))
    & all (fun r => ~~ structural_row r)
        (sorted_report
           (write_results now_strftime vadf cmdf quiet date_on date_format))].
Proof.
move=> _; rewrite /sorted_report /unsorted_report /=.
have permE := perm_sorted_alloc cmdf vadf; rewrite drop_structuralE in permE.
split=> //.
- by rewrite (perm_size permE) size_filter -(count_predC structural_row vadf) addKn.
- by rewrite (perm_all _ permE); exact: filter_all.
Qed.

Lemma sorted_report_drops_structural_witness :
  [/\ [seq Symbol r
      | r <- unsorted_report
               (write_results (fun _ => ""%string) report_frame
                  ordered_class_map true false ""%string)]
      = [:: Some "VBTLX"%string; Some "Subtotal:"%string;
            Some "Symbol"%string; Some "GBTC"%string; Some "VTSAX"%string;
            Some "VFISX"%string; Some "Total:"%string],
      size (sorted_report
              (write_results (fun _ => ""%string) report_frame
                 ordered_class_map true false ""%string)) = 7 - 3
    & all (fun r => ~~ structural_row r)
        (sorted_report
           (write_results (fun _ => ""%string) report_frame
              ordered_class_map true false ""%string))].
Proof.
have [_ H2 H3] :=
  @sorted_report_drops_structural (fun _ => ""%string) report_frame
    ordered_class_map true false ""%string erefl.
by split; [reflexivity | exact: H2 | exact: H3].
Defined.

(** C4: when [write_results] writes its reports, the rows left once the
    structural rows are removed are stable-sorted by Class.  When some
    Order value is present the key of a row is the Order field the class
    map gives its Class; when none is present the key is the Class itself,
    compared lexically.  In both cases the sorted report is a permutation
    of the remaining rows, ascending in the key (rows without a key last),
    and the rows with equal keys keep their prior relative order. *)
Theorem sorted_report_stable_order (now_strftime : string -> string)
    (vadf : seq row) (cmdf : seq class_entry) (quiet date_on : bool)
    (date_format : string) :
  reports_written vadf ->
  (any_order cmdf ->
   [/\ perm_eq
         (sorted_report
            (write_results now_strftime vadf cmdf quiet date_on date_format))
         [seq r <- vadf | ~~ structural_row r],
       ascending Z.leb (fun r => class_order cmdf (Class r))
         (sorted_report
            (write_results now_strftime vadf cmdf quiet date_on date_format))
     & forall k : option Z,
         [seq r <- sorted_report
                     (write_results now_strftime vadf cmdf quiet date_on
                        date_format)
         | class_order cmdf (Class r) == k]
         = [seq r <- [seq r <- vadf | ~~ structural_row r]
           | class_order cmdf (Class r) == k]]) /\
  (~~ any_order cmdf ->
   [/\ perm_eq
         (sorted_report
            (write_results now_strftime vadf cmdf quiet date_on date_format))
         [seq r <- vadf | ~~ structural_row r],
       ascending String.leb Class
         (sorted_report
            (write_results now_strftime vadf cmdf quiet date_on date_format))
     & forall k : option string,
         [seq r <- sorted_report
                     (write_results now_strftime vadf cmdf quiet date_on
                        date_format)
         | Class r == k]
         = [seq r <- [seq r <- vadf | ~~ structural_row r] | Class r == k]]).
Proof.
move=> _; rewrite /sorted_report /= /sorted_alloc has_orderE drop_structuralE.
have totZ := na_last_total Zleb_total; have trZ := na_last_trans Zleb_trans.
have totS := na_last_total string_leb_total.
have trS := na_last_trans string_leb_trans.
have relE: relpre (order_key cmdf) (na_last Z.leb)
           =2 relpre (fun r => class_order cmdf (Class r)) (na_last Z.leb).
  by move=> x y /=; rewrite !order_keyE.
have keyE' k : (fun r => order_key cmdf r == k)
               =1 (fun r => class_order cmdf (Class r) == k).
  by move=> r /=; rewrite order_keyE.
split=> [->|/negbTE ->]; split.
- by rewrite /sort_by_order perm_sort.
- apply: sorted_ascending; first exact: Zleb_trans.
  rewrite -(eq_sorted relE).
  by apply: sort_sorted; exact: relpre_total.
- move=> k; rewrite -!(eq_filter (keyE' k)).
  exact: sort_key_stable.
- by rewrite /sort_by_Class perm_sort.
- apply: sorted_ascending; first exact: string_leb_trans.
  by apply: sort_sorted; exact: relpre_total.
- by move=> k; exact: sort_key_stable.
Qed.

Lemma sorted_report_stable_order_witness :
  ascending Z.leb (fun r => class_order ordered_class_map (Class r))
    (sorted_report
       (write_results (fun _ => ""%string) report_frame ordered_class_map
          true false ""%string)) /\
  ascending String.leb Class
    (sorted_report
       (write_results (fun _ => ""%string) report_frame unordered_class_map
          true false ""%string)).
Proof.
split.
- by have [/(_ erefl) []] :=
    @sorted_report_stable_order (fun _ => ""%string) report_frame
      ordered_class_map true false ""%string erefl.
- by have [_ /(_ erefl) []] :=
    @sorted_report_stable_order (fun _ => ""%string) report_frame
      unordered_class_map true false ""%string erefl.
Defined.

(** The two sorted reports of the sample frame: by Order (stocks 0, bonds
    1 in their prior order, the unordered class last), and lexically. *)
Example sorted_report_samples :
  [seq Symbol r
  | r <- sorted_report
           (write_results (fun _ => ""%string) report_frame
              ordered_class_map true false ""%string)]
  = [:: Some "VTSAX"%string; Some "VBTLX"%string; Some "VFISX"%string;
        Some "GBTC"%string] /\
  [seq Symbol r
  | r <- sorted_report
           (write_results (fun _ => ""%string) report_frame
              unordered_class_map true false ""%string)]
  = [:: Some "GBTC"%string; Some "VBTLX"%string; Some "VFISX"%string;
        Some "VTSAX"%string].
Proof. by []. Qed.

(** Unmapped classes sort last, ties keep their order. *)
Example sorted_alloc_example :
  [seq Name r
  | r <- sorted_alloc
           [:: ClassEntry (Some "A"%string) (Some "A"%string) (Some 2%Z);
               ClassEntry (Some "B"%string) (Some "B"%string) (Some 1%Z)]
           [:: Row (Some "A"%string) (Some "a1"%string) None None None None;
               Row (Some "C"%string) (Some "c1"%string) None None None None;
               Row None None None (Some "Total:"%string) None None;
               Row (Some "B"%string) (Some "b1"%string) None None None None;
               Row (Some "A"%string) (Some "a2"%string) None None None None]]
  = [:: Some "b1"%string; Some "a1"%string; Some "a2"%string;
        Some "c1"%string].
Proof. by []. Qed.

(** * Candidates *)

Lemma other_rowsE (vadf : seq row) : other_rows vadf = [seq r <- vadf | is_other r].
Proof.
rewrite /other_rows -filter_predI; apply: eq_filter => r /=.
by rewrite /startswith_Other /is_other; case: (Class r) => [c|] //=; case: String.prefix.
Qed.

(** C6: the candidates frame holds exactly the rows whose Class is non-null
    and starts with "Other", reduced to Name and Class, each with "%" = 1.0;
    the candidates file is written only when that selection is non-empty. *)
Theorem candidates_exactly_other (now_strftime : string -> string)
    (vadf : seq row) (cmdf : seq class_entry) (quiet date_on : bool)
    (date_format : string) :
  candidates_csv
    (write_results now_strftime vadf cmdf quiet date_on date_format)
  = if [seq r <- vadf | is_other r] is [::] then None
    else Some
           (("Asset-Map-Candidates"
               ++ date_suffix_of now_strftime date_on date_format
               ++ ".csv")%string,
            [seq Candidate (Name r) (Class r) (Qmake 1 1)
            | r <- vadf & is_other r]).
Proof.
rewrite /write_results /= /candidates_of /add_pct size_map other_rowsE.
by rewrite -map_comp; case: [seq r <- vadf | is_other r].
Qed.

Example candidates_example :
  candidates_csv
    (write_results (fun _ => "2024-05-01"%string)
       [:: fund_row; other_row] [::] true true "%Y-%m-%d"%string)
  = Some ("Asset-Map-Candidates-2024-05-01.csv"%string,
          [:: Candidate (Some "Gold Trust"%string)
                (Some "Other asset types"%string) (Qmake 1 1)]).
Proof. by []. Qed.

(** * Loading the asset map *)

(** C9: when no file exists at the asset-map path, [read_asset_map] does
    not raise: it returns the empty frame with columns Name, Class, "%",
    and prints its warning whatever the quiet flag; the run then goes on
    with no asset-level remapping. *)
Theorem read_asset_map_missing_file (read_csv : string -> exn + frame)
    (asset_map_path : string) (quiet : bool) :
  read_csv asset_map_path = inl FileNotFoundError ->
  read_asset_map read_csv asset_map_path quiet =
    ([:: ("Asset Map not found at " ++ asset_map_path ++
          " - no additional asset mapping will be done")%string],
     inr (Frame [:: "Name"%string; "Class"%string; "%"%string] [::])) /\
  forall vadf : seq row,
    asset_map_step
      (asset_entries (Frame [:: "Name"%string; "Class"%string; "%"%string] [::]))
      vadf = vadf.
Proof.
move=> missing; rewrite /read_asset_map missing; split=> // vadf.
by rewrite /asset_map_step /remap_asset /= map_id.
Qed.

Lemma read_asset_map_missing_file_witness :
  read_asset_map (fun _ => inl FileNotFoundError) "Asset-Map.csv"%string true =
    ([:: "Asset Map not found at Asset-Map.csv - no additional asset mapping will be done"%string],
     inr (Frame [:: "Name"%string; "Class"%string; "%"%string] [::])).
Proof.
exact: (proj1 (@read_asset_map_missing_file (fun _ => inl FileNotFoundError)
                 "Asset-Map.csv"%string true erefl)).
Defined.

(** The three paths of [read_asset_map] (the last two are the cases of
    [test_pv_file_io.py]). *)
Example read_asset_map_paths :
  let good := Frame [:: "Name"%string; "Class"%string; "%"%string]
                [:: [:: Some "Asset1"%string; Some "Class1"%string;
                        Some "100%"%string]] in
  let bad := Frame [:: "Invalid"%string; "Class"%string; "%"%string]
               [:: [:: Some "Asset1"%string; Some "Class1"%string;
                       Some "100%"%string]] in
  [/\ read_asset_map (fun _ => inr good) "m.csv"%string false
        = ([:: "Read Asset map from m.csv"%string], inr good),
      read_asset_map (fun _ => inr bad) "m.csv"%string true
        = ([::], inl (KeyError [:: "Name"%string]))
    & read_asset_map (fun _ => inl FileNotFoundError) "m.csv"%string true
        = ([:: "Asset Map not found at m.csv - no additional asset mapping will be done"%string],
           inr (Frame [:: "Name"%string; "Class"%string; "%"%string] [::]))].
Proof. by []. Qed.

(** * Null names *)

(** A Total row without a Name beside a holding, in fixed mode: the
    reports are written, the Total row goes to the unsorted report as
    "None" and does not reach the sorted one. *)
Lemma null_name_total_missing_from_sorted_report :
  [/\ Name nameless_total = None,
      reports_written
        (post_process [:: nameless_total; fund_row] [:: stocks_entry]
           [:: munis_entry] true),
      [seq (Name r, Symbol r)
      | r <- unsorted_report
               (write_results (fun _ => ""%string)
                  (post_process [:: nameless_total; fund_row]
                     [:: stocks_entry] [:: munis_entry] true)
                  [:: stocks_entry] true false ""%string)]
      = [:: (Some "None"%string, Some "Total:"%string);
            (Some "Total Stock Market Index"%string, Some "VTSAX"%string)]
    & [seq (Name r, Symbol r)
      | r <- sorted_report
               (write_results (fun _ => ""%string)
                  (post_process [:: nameless_total; fund_row]
                     [:: stocks_entry] [:: munis_entry] true)
                  [:: stocks_entry] true false ""%string)]
      = [:: (Some "Total Stock Market Index"%string, Some "VTSAX"%string)]].
Proof. by []. Qed.

Lemma mem_sorted_alloc (cmdf : seq class_entry) (vadf : seq row) (r : row) :
  (r \in sorted_alloc cmdf vadf) = (r \in vadf) && ~~ is_structural r.
Proof.
by rewrite (perm_mem (perm_sorted_alloc cmdf vadf)) mem_filter andbC.
Qed.

(** C10 (amended): with fixed-income mode on, [post_process] replaces every
    null Name by the string "None" and the frame keeps that value: when
    [write_results] writes its reports, the row is written with Name
    "None" to the unsorted report, and to the sorted report exactly when
    its Symbol is neither "Subtotal:" nor "Total:" (those rows are removed
    before sorting).  With fixed-income mode off every Name, null or not,
    is left as it was. *)
Theorem null_names_persist_in_reports (now_strftime : string -> string)
    (r0 : row) (vadf : seq row) (cmdf : seq class_entry)
    (amdf : seq asset_entry) (quiet date_on : bool) (date_format : string) :
  (forall i, i < size vadf -> Name (nth r0 vadf i) = None ->
     Name (nth r0 (post_process vadf cmdf amdf true) i) = Some "None"%string
     /\ (reports_written (post_process vadf cmdf amdf true) ->
         nth r0 (post_process vadf cmdf amdf true) i
           \in unsorted_report
                 (write_results now_strftime
                    (post_process vadf cmdf amdf true) cmdf quiet date_on
                    date_format)
         /\ (nth r0 (post_process vadf cmdf amdf true) i
               \in sorted_report
                     (write_results now_strftime
                        (post_process vadf cmdf amdf true) cmdf quiet
                        date_on date_format))
            = (Symbol (nth r0 vadf i) != Some "Subtotal:"%string)
              && (Symbol (nth r0 vadf i) != Some "Total:"%string))) /\
  [seq Name r | r <- post_process vadf cmdf amdf false]
    = [seq Name r | r <- vadf].
Proof.
split=> [i lt_i Nn|]; last first.
  rewrite post_processE -map_comp; apply: eq_map => r /=.
  by rewrite Name_post_process_row.
have lt_i': i < size (post_process vadf cmdf amdf true).
  by rewrite size_post_process.
have nameE: Name (nth r0 (post_process vadf cmdf amdf true) i) = Some lit_None.
  by rewrite nth_post_process // Name_post_process_row /name_or_None Nn.
split=> // _.
rewrite /unsorted_report /sorted_report /= mem_sorted_alloc mem_nth //=.
split=> //; rewrite /is_structural nameE /= orbF.
by rewrite nth_post_process // Symbol_post_process_row negb_or.
Qed.

Lemma null_names_persist_in_reports_witness :
  [/\ Name (nth nameless_row
              (post_process [:: nameless_row; nameless_total]
                 [:: stocks_entry] [:: munis_entry] true) 0)
      = Some "None"%string,
      nth nameless_row
        (post_process [:: nameless_row; nameless_total] [:: stocks_entry]
           [:: munis_entry] true) 0
        \in sorted_report
              (write_results (fun _ => ""%string)
                 (post_process [:: nameless_row; nameless_total]
                    [:: stocks_entry] [:: munis_entry] true)
                 [:: stocks_entry] true false ""%string)
    & nth nameless_row
        (post_process [:: nameless_row; nameless_total] [:: stocks_entry]
           [:: munis_entry] true) 1
        \notin sorted_report
                 (write_results (fun _ => ""%string)
                    (post_process [:: nameless_row; nameless_total]
                       [:: stocks_entry] [:: munis_entry] true)
                    [:: stocks_entry] true false ""%string)].
Proof.
have [H _] := null_names_persist_in_reports (fun _ => ""%string) nameless_row
                [:: nameless_row; nameless_total] [:: stocks_entry]
                [:: munis_entry] true false ""%string.
have [H0 /(_ erefl) [_ H0s]] := H 0 erefl erefl.
have [_ /(_ erefl) [_ H1s]] := H 1 erefl erefl.
by split; [exact: H0 | rewrite H0s | rewrite H1s].
Defined.

(** * Null classes *)

Lemma remap_Class_nonnull (cmdf : seq class_entry) (r : row) :
  all (fun e => cm_ClassMap e != None) cmdf ->
  Class r != None -> Class (remap_Class cmdf r) != None.
Proof.
move=> /allP nonnull cr; rewrite /remap_Class; case: ifP => // kin.
have: Class r \in [seq kv.1 | kv <- [seq (cm_Class e, cm_ClassMap e) | e <- cmdf]].
  by rewrite -map_comp.
case/dict_of_in => v get_v; rewrite /series_map /class_dict get_v /=.
by have /mapP [e ein [_ ->]] := dict_of_some get_v; exact: nonnull.
Qed.

Lemma remap_asset_nonnull (amdf : seq asset_entry) (r : row) :
  all (fun e => am_Class e != None) amdf ->
  Class r != None -> Class (remap_asset amdf r) != None.
Proof.
move=> /allP nonnull cr; rewrite /remap_asset; case: ifP => // kin.
have: Name r \in [seq kv.1 | kv <- [seq (am_Name e, am_Class e) | e <- amdf]].
  by rewrite -map_comp.
case/dict_of_in => v get_v; rewrite /series_map /asset_dict get_v /=.
by have /mapP [e ein [_ ->]] := dict_of_some get_v; exact: nonnull.
Qed.

Lemma Class_null_total (r : row) :
  Class (null_total r) = if is_subtotal_or_total r then None else Class r.
Proof. by rewrite /null_total; case: ifP. Qed.

(** A Subtotal or Total row that no later step matches keeps its null Class. *)
Lemma post_process_row_total_null (cmdf : seq class_entry)
    (amdf : seq asset_entry) (fixed : bool) (r : row) :
  is_subtotal_or_total r ->
  (fixed -> ~~ fixed_regex_search (name_or_None r)) ->
  None \notin [seq cm_Class e | e <- cmdf] ->
  (if fixed then Some (name_or_None r) else Name r)
    \notin [seq am_Name e | e <- amdf] ->
  Class (post_process_row cmdf amdf fixed r) = None.
Proof.
move=> tot nofix nokey noasset; rewrite /post_process_row.
rewrite {1}/remap_asset Name_remap_Class Name_fixed_if.
rewrite /name_or_None Name_null_total (negbTE noasset).
have stepE: Class (fixed_if fixed (null_total r)) = None.
  rewrite Class_fixed_if /name_or_None Name_null_total Class_null_total tot.
  by case: fixed nofix {noasset} => [/(_ isT) /negbTE ->|].
by rewrite /remap_Class stepE (negbTE nokey).
Qed.

Lemma post_process_row_nonnull (cmdf : seq class_entry)
    (amdf : seq asset_entry) (fixed : bool) (r : row) :
  ~~ is_subtotal_or_total r ->
  Class r != None ->
  all (fun e => cm_ClassMap e != None) cmdf ->
  all (fun e => am_Class e != None) amdf ->
  Class (post_process_row cmdf amdf fixed r) != None.
Proof.
move=> ntot cr cm_ok am_ok; rewrite /post_process_row.
apply: remap_asset_nonnull => //; apply: remap_Class_nonnull => //.
by rewrite Class_fixed_if Class_null_total (negbTE ntot); case: ifP.
Qed.

(** A data row with no header or account-marker row above it: nothing is
    forward-filled onto it, and [post_process] leaves its Class null
    although its Symbol is neither "Subtotal:" nor "Total:". *)
Lemma orphan_fund_has_null_Class :
  [seq (Symbol r, Class r)
  | r <- post_process (csv_post_process [:: orphan_fund]) [:: stocks_entry]
           [::] false]
  = [:: (Some "FA"%string, None)].
Proof. by []. Qed.

(** C2 (amended): [post_process] explicitly nulls the Class of every row
    whose Symbol is "Subtotal:" or "Total:", and such a row ends with a
    null Class when no later step matches it (its Name is not matched by
    the fixed-income pattern in fixed mode, it is no Asset Map Name, and
    null is no Class Map key).  A row with any other Symbol ends with a
    non-null Class provided its Class was non-null when [post_process]
    started and neither map holds a null target (ClassMap, Class). *)
Theorem class_null_only_on_totals (r0 : row) (vadf : seq row)
    (cmdf : seq class_entry) (amdf : seq asset_entry) (fixed : bool)
    (i : nat) :
  i < size vadf ->
  [/\ Symbol (nth r0 (post_process vadf cmdf amdf fixed) i)
        = Symbol (nth r0 vadf i),
      is_subtotal_or_total (nth r0 vadf i) ->
        Class (nth r0 (null_totals vadf) i) = None,
      is_subtotal_or_total (nth r0 vadf i) ->
        (fixed -> ~~ fixed_regex_search (name_or_None (nth r0 vadf i))) ->
        None \notin [seq cm_Class e | e <- cmdf] ->
        Name (nth r0 (post_process vadf cmdf amdf fixed) i)
          \notin [seq am_Name e | e <- amdf] ->
        Class (nth r0 (post_process vadf cmdf amdf fixed) i) = None
    & ~~ is_subtotal_or_total (nth r0 vadf i) ->
        Class (nth r0 vadf i) != None ->
        all (fun e => cm_ClassMap e != None) cmdf ->
        all (fun e => am_Class e != None) amdf ->
        Class (nth r0 (post_process vadf cmdf amdf fixed) i) != None].
Proof.
move=> lt_i; rewrite nth_post_process //; split.
- exact: Symbol_post_process_row.
- by move=> tot; rewrite (nth_map r0) // Class_null_total tot.
- rewrite Name_post_process_row; exact: post_process_row_total_null.
- exact: post_process_row_nonnull.
Qed.

Lemma class_null_only_on_totals_witness :
  [/\ Class (nth fund_row
               (post_process [:: fund_row; subtotal_row] [:: stocks_entry]
                  [:: munis_entry] true) 0) != None,
      Class (nth fund_row (null_totals [:: fund_row; subtotal_row]) 1) = None
    & Class (nth fund_row
               (post_process [:: fund_row; subtotal_row] [:: stocks_entry]
                  [:: munis_entry] true) 1) = None].
Proof.
have [_ _ _ H0] := @class_null_only_on_totals fund_row
  [:: fund_row; subtotal_row] [:: stocks_entry] [:: munis_entry] true 0
  erefl.
have [_ H1 H2 _] := @class_null_only_on_totals fund_row
  [:: fund_row; subtotal_row] [:: stocks_entry] [:: munis_entry] true 1
  erefl.
split.
- exact: (H0 erefl erefl erefl erefl).
- exact: (H1 erefl).
- exact: (H2 erefl (fun _ => erefl) erefl erefl).
Defined.

(** * The end-to-end scenario *)

(** The scenario with the account marker "Brokerage" and a header row
    holding the column titles: the data row is normalized to the header's
    seed "Value", not to the marker's class. *)
Lemma scenario_data_row_takes_header_seed :
  [/\ [seq (raw_FundName r, raw_AccountName r, raw_Value r)
      | r <- take 1 scenario_example]
      = [:: (None, Some "Brokerage"%string, None)],
      [seq (Name r, Symbol r, Class r) | r <- csv_post_process scenario_example]
      = [:: (Some "Fund Name"%string, Some "Symbol"%string,
             Some "Value"%string);
            (Some "Fund A"%string, Some "FA"%string, Some "Value"%string);
            (None, Some "Subtotal:"%string, Some "Value"%string)]
    & [seq (Name r, Symbol r, Class r)
      | r <- post_process (csv_post_process scenario_example)
               [:: stocks_entry] [::] false]
      = [:: (Some "Fund Name"%string, Some "Symbol"%string,
             Some "Value"%string);
            (Some "Fund A"%string, Some "FA"%string, Some "Value"%string);
            (None, Some "Subtotal:"%string, None)]].
Proof. by []. Qed.

Lemma scenario_normalized
    (macct msym mpct hname hacct hsym hpct dacct dpct sname sacct spct
       : option string) :
  csv_post_process
    (scenario_rows macct msym mpct hname hacct hsym hpct dacct dpct sname
       sacct spct)
  = [:: Row (header_fill macct hname hacct) hname hacct hsym
          (Some (Str lit_Value)) hpct;
        Row (header_fill macct hname hacct) (Some "Fund A"%string) dacct
          (Some "FA"%string) (Some (Num 100)) dpct;
        Row (if sname is Some _ then header_fill macct hname hacct
             else if sacct is Some _ then sacct
                  else header_fill macct hname hacct)
          sname sacct (Some lit_Subtotal) (Some (Num 100)) spct].
Proof.
by case: hname => [?|]; case: hacct => [?|]; case: macct => [?|];
   case: sname => [?|]; case: sacct => [?|].
Qed.

(** C3 (amended): in the scenario the normalized Class of the data row is
    the value forward-filled from the header row directly above it: the
    literal "Value" seeded on the header row when that row has a Name, the
    header row's own Account when it has no Name, and the class
    propagated from the account marker row only when the header row has
    neither.  The Subtotal row ends with a null Class after the classifier
    has run, when no fixed-income or asset-map rule matches its Name and
    null is no class-map key. *)
Theorem scenario_classes (r0 : row)
    (macct msym mpct hname hacct hsym hpct dacct dpct sname sacct spct
       : option string)
    (cmdf : seq class_entry) (amdf : seq asset_entry) (fixed : bool) :
  (fixed -> ~~ fixed_regex_search (odflt lit_None sname)) ->
  None \notin [seq cm_Class e | e <- cmdf] ->
  (if fixed then Some (odflt lit_None sname) else sname)
    \notin [seq am_Name e | e <- amdf] ->
  [/\ [seq (Name r, Symbol r)
      | r <- csv_post_process
               (scenario_rows macct msym mpct hname hacct hsym hpct dacct
                  dpct sname sacct spct)]
      = [:: (hname, hsym); (Some "Fund A"%string, Some "FA"%string);
            (sname, Some lit_Subtotal)],
      Class (nth r0
               (csv_post_process
                  (scenario_rows macct msym mpct hname hacct hsym hpct dacct
                     dpct sname sacct spct)) 1)
      = (if hname is Some _ then Some lit_Value
         else if hacct is Some _ then hacct else macct)
    & Class (nth r0
               (post_process
                  (csv_post_process
                     (scenario_rows macct msym mpct hname hacct hsym hpct
                        dacct dpct sname sacct spct))
                  cmdf amdf fixed) 2)
      = None].
Proof.
move=> nofix nokey noasset; rewrite scenario_normalized; split=> //.
rewrite nth_post_process //=.
exact: post_process_row_total_null.
Qed.

Lemma scenario_classes_witness :
  Class (nth fund_row (csv_post_process scenario_example) 1)
    = Some lit_Value /\
  Class (nth fund_row
           (post_process (csv_post_process scenario_example)
              [:: stocks_entry] [:: munis_entry] true) 2)
    = None.
Proof.
have [_ H1 H2] :=
  @scenario_classes fund_row (Some "Brokerage"%string) None None
    (Some "Fund Name"%string) (Some "Account Name"%string)
    (Some "Symbol"%string) (Some "% of Portfolio"%string)
    (Some "Brokerage"%string) (Some "100%"%string)
    None None (Some "100%"%string) [:: stocks_entry] [:: munis_entry] true
    (fun _ => erefl) erefl erefl.
by split; [exact: H1 | exact: H2].
Defined.

(** The whole CSV branch on the scenario: the reports as written. *)
Example main_csv_scenario :
  let res := main_csv (fun _ => "2024-05-01"%string) scenario_example
               [:: stocks_entry] [::] false true true "%Y-%m-%d"%string in
  [/\ candidates_csv res = None,
      report_csv res
      = ("out/Van-Alloc-Rep-2024-05-01.csv"%string,
         [:: Row (Some "Value"%string) (Some "Fund Name"%string)
               (Some "Account Name"%string) (Some "Symbol"%string)
               (Some (Str "Value")) (Some "% of Portfolio"%string);
             Row (Some "Value"%string) (Some "Fund A"%string)
               (Some "Brokerage"%string) (Some "FA"%string)
               (Some (Num 100)) (Some "100%"%string);
             Row None None None (Some "Subtotal:"%string) (Some (Num 100))
               (Some "100%"%string)])
    & alloc_csv res
      = ("out/Van-Alloc-2024-05-01.csv"%string,
         [:: Row (Some "Value"%string) (Some "Fund Name"%string)
               (Some "Account Name"%string) (Some "Symbol"%string)
               (Some (Str "Value")) (Some "% of Portfolio"%string);
             Row (Some "Value"%string) (Some "Fund A"%string)
               (Some "Brokerage"%string) (Some "FA"%string)
               (Some (Num 100)) (Some "100%"%string)])].
Proof. by []. Qed.

(** * Further properties of the normalizer *)

Lemma csv_post_processE (vadf : seq raw_row) :
  csv_post_process vadf =
  dropna_Value (ffill_Class None [seq seeded r | r <- vadf]).
Proof. by rewrite /csv_post_process -map_comp. Qed.

Lemma ffill_Class_cat (last : option string) (s1 s2 : seq row) :
  ffill_Class last (s1 ++ s2) =
  ffill_Class last s1
    ++ ffill_Class
         (foldl (fun acc r => if Class r is Some _ then Class r else acc)
            last s1) s2.
Proof. by elim: s1 last => [|r s1 IH] last //=; rewrite IH. Qed.

Lemma ffill_Class_null (last : option string) (s : seq row) :
  all (fun r => Class r == None) s ->
  ffill_Class last s = [seq set_Class last r | r <- s].
Proof.
elim: s => [|r s IH] //= /andP [/eqP -> /IH ->].
by [].
Qed.

Lemma foldl_carry_null (last : option string) (s : seq row) :
  all (fun r => Class r == None) s ->
  foldl (fun acc r => if Class r is Some _ then Class r else acc) last s = last.
Proof. by elim: s => [|r s IH] //= /andP [/eqP -> /IH]. Qed.

Lemma row_cells_ffill (last : option string) (s : seq row) :
  [seq row_cells r | r <- dropna_Value (ffill_Class last s)] =
  [seq row_cells r | r <- dropna_Value s].
Proof.
elim: s last => [|r s IH] last //=.
by case: ifP => _ /=; rewrite IH.
Qed.

Lemma size_dropna_ffill (last : option string) (s : seq row) :
  size (dropna_Value (ffill_Class last s)) = count (fun r => Value r != None) s.
Proof.
by rewrite -(size_map row_cells) row_cells_ffill size_map size_filter.
Qed.

Lemma Value_seeded (r : raw_row) : Value (seeded r) = raw_Value r.
Proof. by rewrite /seeded /account_to_Class /=; case: (raw_FundName r). Qed.

Lemma row_cells_seeded (r : raw_row) : row_cells (seeded r) = raw_cells r.
Proof. by rewrite /seeded /account_to_Class /=; case: (raw_FundName r). Qed.

Lemma count_Value_set_Class (c : option string) (s : seq row) :
  count (fun r => Value r != None) [seq set_Class c r | r <- s] =
  count (fun r => Value r != None) s.
Proof. by rewrite count_map; apply: eq_count. Qed.

Lemma count_Value_seeded (s : seq raw_row) :
  count (fun r => Value r != None) [seq seeded r | r <- s] = count has_value s.
Proof.
by rewrite count_map; apply: eq_count => r /=; rewrite Value_seeded.
Qed.

Lemma row_cells_csv_post_process (vadf : seq raw_row) :
  [seq row_cells r | r <- csv_post_process vadf] =
  [seq raw_cells r | r <- vadf & has_value r].
Proof.
rewrite csv_post_processE row_cells_ffill /dropna_Value filter_map -!map_comp.
have E: preim seeded (fun r => Value r != None) =1 has_value.
  by move=> r /=; rewrite Value_seeded.
by rewrite (eq_filter E); apply: eq_map => r /=; rewrite row_cells_seeded.
Qed.

(** X1: the normalizer keeps exactly the rows with a non-null Value, in
    their order, and every cell read from the file as it was; only the
    Class column is new. *)
Theorem csv_post_process_keeps_cells (vadf : seq raw_row) :
  [seq row_cells r | r <- csv_post_process vadf] =
  [seq raw_cells r | r <- vadf & has_value r].
Proof. exact: row_cells_csv_post_process. Qed.

Lemma carry_after_seed (before mids : seq raw_row) (m : raw_row) (c : string) :
  seed m = Some c -> all (fun r => seed r == None) mids ->
  foldl (fun acc r => if Class r is Some _ then Class r else acc) None
    [seq seeded r | r <- before ++ m :: mids] = Some c.
Proof.
move=> seed_m mids_null; rewrite map_cat foldl_cat /=.
rewrite -/(seed m) seed_m foldl_carry_null // all_map.
exact: mids_null.
Qed.

(** X2: forward fill.  A row with a Value that follows a seeded row (a
    header row, or an account marker with an Account) with only unseeded
    rows in between is normalized with that row's seed as its Class,
    unless it carries a seed of its own; its position is the number of
    rows with a Value above it. *)
Theorem csv_post_process_fill (r0 : row) (before mids after : seq raw_row)
    (m d : raw_row) (c : string) :
  seed m = Some c ->
  all (fun r => seed r == None) mids ->
  has_value d ->
  nth r0 (csv_post_process (before ++ m :: mids ++ d :: after))
      (count has_value (before ++ m :: mids))
  = Row (if seed d is Some _ then seed d else Some c)
        (raw_FundName d) (raw_AccountName d) (raw_Symbol d) (raw_Value d)
        (raw_Pct d).
Proof.
move=> seed_m mids_null val_d.
have ->: before ++ m :: mids ++ d :: after
         = (before ++ m :: mids) ++ d :: after by rewrite -catA.
rewrite csv_post_processE map_cat ffill_Class_cat.
rewrite (carry_after_seed before seed_m mids_null) /=.
rewrite /dropna_Value filter_cat nth_cat.
rewrite -/(dropna_Value _) size_dropna_ffill count_Value_seeded ltnn subnn /=.
rewrite Value_seeded -/(has_value d) val_d /= -/(seed d).
move: (if seed d is Some _ then _ else _) {val_d} => c'.
by case: d => [[n|] a sy v p].
Qed.

Lemma csv_post_process_fill_witness :
  nth fund_row
      (csv_post_process ([::] ++ marker_raw :: [:: blank_raw] ++ fund_raw :: [::]))
      0
  = Row (Some "U.S. stocks & stock funds"%string)
        (Some "Total Stock Market Index"%string) (Some "IRA"%string)
        (Some "VTSAX"%string) (Some (Num 2000)) (Some "2%"%string).
Proof.
exact: (@csv_post_process_fill fund_row [::] [:: blank_raw] [::] marker_raw
          fund_raw "U.S. stocks & stock funds"%string erefl erefl erefl).
Defined.

(** X3: the rows above the first seeded row are normalized with a null
    Class: nothing is filled backwards. *)
Theorem csv_post_process_unseeded (r0 : row) (before rest : seq raw_row)
    (i : nat) :
  all (fun r => seed r == None) before ->
  i < count has_value before ->
  Class (nth r0 (csv_post_process (before ++ rest)) i) = None.
Proof.
move=> unseeded lt_i.
rewrite csv_post_processE map_cat ffill_Class_cat /dropna_Value filter_cat.
rewrite nth_cat -/(dropna_Value _) size_dropna_ffill count_Value_seeded lt_i.
have seeded_null: all (fun r => Class r == None) [seq seeded r | r <- before].
  by rewrite all_map.
rewrite (ffill_Class_null _ seeded_null).
have: all (fun r => Class r == None)
        (dropna_Value [seq set_Class None r | r <- [seq seeded r | r <- before]]).
  by rewrite all_filter; apply/allP => r /mapP [r' _ ->]; apply/implyP.
move/(all_nthP r0)/(_ i) => H; apply/eqP; apply: H.
by rewrite size_filter count_Value_set_Class count_Value_seeded.
Qed.

Lemma csv_post_process_unseeded_witness :
  Class (nth fund_row (csv_post_process ([:: fund_raw] ++ [:: marker_raw])) 0)
  = None.
Proof.
exact: (@csv_post_process_unseeded fund_row [:: fund_raw] [:: marker_raw] 0
          erefl erefl).
Defined.

(** * Further properties of the classifier *)

Lemma Class_remap_Class (cmdf : seq class_entry) (r : row) :
  Class (remap_Class cmdf r) = remap_class_value cmdf (Class r).
Proof. by rewrite /remap_Class /remap_class_value; case: ifP. Qed.

Lemma Class_remap_asset (amdf : seq asset_entry) (r : row) :
  Class (remap_asset amdf r) =
  if Name r \in [seq am_Name e | e <- amdf]
  then series_map (asset_dict amdf) (Name r) else Class r.
Proof. by rewrite /remap_asset; case: ifP. Qed.

Lemma row_cells_eq (r1 r2 : row) :
  Class r1 = Class r2 -> row_cells r1 = row_cells r2 -> r1 = r2.
Proof.
by case: r1 => c1 n1 a1 s1 v1 p1; case: r2 => c2 n2 a2 s2 v2 p2 /= -> [-> -> -> -> ->].
Qed.

Lemma rest_post_process_row (cmdf : seq class_entry) (amdf : seq asset_entry)
    (fixed : bool) (r : row) :
  (Account (post_process_row cmdf amdf fixed r),
   Symbol (post_process_row cmdf amdf fixed r),
   Value (post_process_row cmdf amdf fixed r),
   Pct (post_process_row cmdf amdf fixed r))
  = (Account r, Symbol r, Value r, Pct r).
Proof.
rewrite /post_process_row /remap_asset /remap_Class /fixed_if /fixed_row.
rewrite /fillna_Name /null_total.
by case: r => c [n|] a s v p; case: fixed => /=; do ?[case: ifP => _ /=].
Qed.

Lemma rest_post_process (vadf : seq row) (cmdf : seq class_entry)
    (amdf : seq asset_entry) (fixed : bool) :
  [seq (Account r, Symbol r, Value r, Pct r)
  | r <- post_process vadf cmdf amdf fixed]
  = [seq (Account r, Symbol r, Value r, Pct r) | r <- vadf].
Proof.
rewrite post_processE -map_comp; apply: eq_map => r /=.
exact: rest_post_process_row.
Qed.

(** X4: [post_process] keeps the number and order of the rows and never
    touches Account, Symbol, Value or the percentage: only Class (and, in
    fixed mode, a null Name) can change. *)
Theorem post_process_keeps_cells (vadf : seq row) (cmdf : seq class_entry)
    (amdf : seq asset_entry) (fixed : bool) :
  [seq (Account r, Symbol r, Value r, Pct r)
  | r <- post_process vadf cmdf amdf fixed]
  = [seq (Account r, Symbol r, Value r, Pct r) | r <- vadf].
Proof. exact: rest_post_process. Qed.

(** X5: the asset map has the final say on every row, in either mode and
    on Subtotal and Total rows too: a row whose Name, as [post_process]
    leaves it, is the Name of an asset-map entry ends with the Class of the
    last such entry. *)
Theorem asset_map_final_say (r0 : row) (vadf : seq row)
    (cmdf : seq class_entry) (before after : seq asset_entry)
    (e : asset_entry) (fixed : bool) (i : nat) :
  i < size vadf ->
  am_Name e
    = Name (nth r0 (post_process vadf cmdf (before ++ e :: after) fixed) i) ->
  am_Name e \notin [seq am_Name e' | e' <- after] ->
  Class (nth r0 (post_process vadf cmdf (before ++ e :: after) fixed) i)
    = am_Class e.
Proof.
move=> lt_i; rewrite nth_post_process // /post_process_row Name_remap_asset.
by move=> eN nin; apply: remap_asset_last => //; rewrite -eN.
Qed.

Lemma asset_map_final_say_witness :
  Class (nth subtotal_row
           (post_process [:: subtotal_row] [:: stocks_entry]
              ([::] ++ AssetEntry (Some "None"%string)
                         (Some "Unnamed"%string) None :: [::]) true) 0)
  = Some "Unnamed"%string.
Proof.
exact: (@asset_map_final_say subtotal_row [:: subtotal_row] [:: stocks_entry]
          [::] [::] (AssetEntry (Some "None"%string) (Some "Unnamed"%string)
                       None) true 0 erefl erefl erefl).
Defined.

(** X6: a row no rule matches is left exactly as it was: its Symbol is
    neither "Subtotal:" nor "Total:", its Class is no class-map key, its
    Name no asset-map Name, and in fixed mode its Name is non-null and not
    matched by the pattern. *)
Theorem unmatched_row_untouched (r0 : row) (vadf : seq row)
    (cmdf : seq class_entry) (amdf : seq asset_entry) (fixed : bool)
    (i : nat) :
  i < size vadf ->
  ~~ is_subtotal_or_total (nth r0 vadf i) ->
  (fixed ==> (Name (nth r0 vadf i) != None)
             && ~~ fixed_regex_search (name_or_None (nth r0 vadf i))) ->
  Class (nth r0 vadf i) \notin [seq cm_Class e | e <- cmdf] ->
  Name (nth r0 vadf i) \notin [seq am_Name e | e <- amdf] ->
  nth r0 (post_process vadf cmdf amdf fixed) i = nth r0 vadf i.
Proof.
move=> lt_i; rewrite nth_post_process //; move: (nth r0 vadf i) => r.
move=> ntot fx nokey noasset.
have nameF:
    (if fixed then Some (name_or_None r) else Name r) = Name r.
  by case: fixed fx => //= /andP []; rewrite /name_or_None; case: (Name r).
have noFix: fixed && fixed_regex_search (name_or_None r) = false.
  by case: fixed fx {nameF} => //= /andP [_ /negbTE].
have nameE: Name (post_process_row cmdf amdf fixed r) = Name r.
  by rewrite Name_post_process_row.
have classE: Class (post_process_row cmdf amdf fixed r) = Class r.
  rewrite /post_process_row Class_remap_asset Name_remap_Class Name_fixed_if.
  rewrite /name_or_None Name_null_total -/(name_or_None r) nameF.
  rewrite (negbTE noasset) Class_remap_Class Class_fixed_if.
  rewrite /name_or_None Name_null_total -/(name_or_None r) noFix.
  by rewrite Class_null_total (negbTE ntot) /remap_class_value (negbTE nokey).
apply: row_cells_eq => //.
have := rest_post_process_row cmdf amdf fixed r.
by rewrite /row_cells nameE => -[-> -> -> ->].
Qed.

Lemma unmatched_row_untouched_witness :
  nth fund_row
    (post_process [:: fund_row] [:: bonds_entry] [:: munis_entry] true) 0
  = fund_row.
Proof.
exact: (@unmatched_row_untouched fund_row [:: fund_row] [:: bonds_entry]
          [:: munis_entry] true 0 erefl erefl erefl erefl erefl).
Defined.

Lemma remap_class_value_last (before after : seq class_entry)
    (e : class_entry) :
  cm_Class e \notin [seq cm_Class e' | e' <- after] ->
  remap_class_value (before ++ e :: after) (cm_Class e) = cm_ClassMap e.
Proof.
move=> nin; rewrite /remap_class_value map_cat mem_cat /= inE eqxx orbT.
by rewrite /series_map /class_dict map_cat /= dict_get_last // -map_comp.
Qed.

Lemma remap_class_value_notin (cmdf : seq class_entry) (c : option string) :
  c \notin [seq cm_Class e | e <- cmdf] -> remap_class_value cmdf c = c.
Proof. by rewrite /remap_class_value => /negbTE ->. Qed.

(** The Class [post_process] gives a row, step by step. *)
Lemma Class_post_process_row (cmdf : seq class_entry)
    (amdf : seq asset_entry) (fixed : bool) (r : row) :
  Class (post_process_row cmdf amdf fixed r) =
  if Name (post_process_row cmdf amdf fixed r) \in [seq am_Name e | e <- amdf]
  then series_map (asset_dict amdf) (Name (post_process_row cmdf amdf fixed r))
  else remap_class_value cmdf
         (if fixed && fixed_regex_search (name_or_None r) then Some lit_Fixed
          else if is_subtotal_or_total r then None else Class r).
Proof.
rewrite {1}/post_process_row {1 2}/post_process_row Class_remap_asset.
rewrite Name_remap_asset Class_remap_Class Class_fixed_if.
by rewrite /name_or_None Name_null_total Class_null_total.
Qed.

(** X7: class-level renaming.  A row that is neither a Subtotal or Total
    row nor set to "Fixed", and whose Name the asset map does not list,
    ends with the ClassMap of the last class-map entry whose Class is the
    row's Class. *)
Theorem class_map_entry_renames (r0 : row) (vadf : seq row)
    (before after : seq class_entry) (e : class_entry)
    (amdf : seq asset_entry) (fixed : bool) (i : nat) :
  i < size vadf ->
  ~~ is_subtotal_or_total (nth r0 vadf i) ->
  ~~ (fixed && fixed_regex_search (name_or_None (nth r0 vadf i))) ->
  cm_Class e = Class (nth r0 vadf i) ->
  cm_Class e \notin [seq cm_Class e' | e' <- after] ->
  Name (nth r0 (post_process vadf (before ++ e :: after) amdf fixed) i)
    \notin [seq am_Name e' | e' <- amdf] ->
  Class (nth r0 (post_process vadf (before ++ e :: after) amdf fixed) i)
    = cm_ClassMap e.
Proof.
move=> lt_i; rewrite nth_post_process //; move: (nth r0 vadf i) => r.
move=> /negbTE ntot /negbTE nofix eC nin /negbTE noasset.
rewrite Class_post_process_row noasset nofix ntot -eC.
exact: remap_class_value_last.
Qed.

Lemma class_map_entry_renames_witness :
  Class (nth treasury_row
           (post_process [:: treasury_row] ([::] ++ bonds_entry :: [::])
              [::] false) 0)
  = Some "U.S. bonds"%string.
Proof.
exact: (@class_map_entry_renames treasury_row [:: treasury_row] [::] [::]
          bonds_entry [::] false 0 erefl erefl erefl erefl erefl erefl).
Defined.

(** X8: the fixed-income class is itself subject to class-level renaming.
    In fixed mode a row whose Name matches the pattern and is not listed in
    the asset map ends as "Fixed" only when "Fixed" is no class-map key;
    otherwise it ends with the ClassMap of the last entry keyed "Fixed". *)
Theorem fixed_class_is_renamed (r0 : row) (vadf : seq row)
    (cmdf : seq class_entry) (amdf : seq asset_entry) (i : nat) :
  i < size vadf ->
  fixed_regex_search (name_or_None (nth r0 vadf i)) ->
  Some (name_or_None (nth r0 vadf i)) \notin [seq am_Name e | e <- amdf] ->
  (Some lit_Fixed \notin [seq cm_Class e | e <- cmdf] ->
   Class (nth r0 (post_process vadf cmdf amdf true) i) = Some lit_Fixed) /\
  (forall before after e,
     cmdf = before ++ e :: after ->
     cm_Class e = Some lit_Fixed ->
     Some lit_Fixed \notin [seq cm_Class e' | e' <- after] ->
     Class (nth r0 (post_process vadf cmdf amdf true) i) = cm_ClassMap e).
Proof.
move=> lt_i; rewrite nth_post_process //; move: (nth r0 vadf i) => r.
move=> match_r /negbTE noasset.
have classE: Class (post_process_row cmdf amdf true r)
             = remap_class_value cmdf (Some lit_Fixed).
  by rewrite Class_post_process_row Name_post_process_row noasset /= match_r.
rewrite classE; split=> [nokey|before after e -> eC nin].
  exact: remap_class_value_notin.
by rewrite -eC; apply: remap_class_value_last; rewrite eC.
Qed.

Lemma fixed_class_is_renamed_witness :
  Class (nth cd_row (post_process [:: cd_row] [:: bonds_entry] [::] true) 0)
    = Some lit_Fixed /\
  Class (nth cd_row (post_process [:: cd_row] [:: fixed_entry] [::] true) 0)
    = Some "U.S. bonds"%string.
Proof.
split.
- have [H _] := @fixed_class_is_renamed cd_row [:: cd_row] [:: bonds_entry]
                  [::] 0 erefl erefl erefl.
  exact: (H erefl).
- have [_ H] := @fixed_class_is_renamed cd_row [:: cd_row] [:: fixed_entry]
                  [::] 0 erefl erefl erefl.
  exact: (H [::] [::] fixed_entry erefl erefl erefl).
Defined.

(** ** Running a step twice *)

Lemma remap_class_value_idem (cmdf : seq class_entry) (c : option string) :
  chain_free cmdf ->
  remap_class_value cmdf (remap_class_value cmdf c) = remap_class_value cmdf c.
Proof.
move=> /allP free; rewrite {2 3}/remap_class_value.
case: ifP => [kin|/negbT nin]; last exact: remap_class_value_notin.
have: c \in [seq kv.1 | kv <- [seq (cm_Class e, cm_ClassMap e) | e <- cmdf]].
  by rewrite -map_comp.
case/dict_of_in => v get_v; rewrite /series_map /class_dict get_v.
have /mapP [e ein [_ ->]] := dict_of_some get_v.
exact/eqP/free.
Qed.

(** The hypothesis of the idempotence claim is a special case. *)
Lemma disjoint_chain_free (cmdf : seq class_entry) :
  all (fun e => cm_ClassMap e \notin [seq cm_Class e' | e' <- cmdf]) cmdf ->
  chain_free cmdf.
Proof.
move=> /allP disj; apply/allP => e ein.
by rewrite remap_class_value_notin // disj.
Qed.

Lemma remap_ClassE (cmdf : seq class_entry) (r : row) :
  remap_Class cmdf r = set_Class (remap_class_value cmdf (Class r)) r.
Proof.
by rewrite /remap_Class /remap_class_value; case: ifP => // _; case: r.
Qed.

(** X9: the class-map step is idempotent as soon as the class map has no
    renaming chain, that is when every ClassMap value that is also a Class
    key is renamed to itself (as the "Other" classes of the built-in class
    map are). *)
Theorem class_map_step_idempotent_chain_free (cmdf : seq class_entry)
    (vadf : seq row) :
  chain_free cmdf ->
  class_map_step cmdf (class_map_step cmdf vadf) = class_map_step cmdf vadf.
Proof.
move=> free; rewrite /class_map_step -map_comp; apply: eq_map => r /=.
by rewrite !remap_ClassE /= remap_class_value_idem.
Qed.

Lemma class_map_step_idempotent_chain_free_witness :
  class_map_step [:: bonds_entry; other_stocks_entry]
    (class_map_step [:: bonds_entry; other_stocks_entry]
       [:: treasury_row; other_row])
  = class_map_step [:: bonds_entry; other_stocks_entry]
      [:: treasury_row; other_row].
Proof.
exact: (@class_map_step_idempotent_chain_free
          [:: bonds_entry; other_stocks_entry] [:: treasury_row; other_row]
          erefl).
Defined.

(** X10: the asset-map step is idempotent for every asset map: it reads
    the Name only, which it never changes. *)
Theorem asset_map_step_idempotent (amdf : seq asset_entry) (vadf : seq row) :
  asset_map_step amdf (asset_map_step amdf vadf) = asset_map_step amdf vadf.
Proof.
rewrite /asset_map_step -map_comp; apply: eq_map => r /=.
rewrite {1}/remap_asset Name_remap_asset; case: ifP => // nin.
by rewrite /remap_asset nin.
Qed.

Lemma post_process_row_idem (cmdf : seq class_entry) (amdf : seq asset_entry)
    (fixed : bool) (r : row) :
  chain_free cmdf ->
  post_process_row cmdf amdf fixed (post_process_row cmdf amdf fixed r)
  = post_process_row cmdf amdf fixed r.
Proof.
move=> free.
have nameE: Name (post_process_row cmdf amdf fixed
                    (post_process_row cmdf amdf fixed r))
            = Name (post_process_row cmdf amdf fixed r).
  rewrite [LHS]Name_post_process_row; case: fixed => //.
  by rewrite /name_or_None Name_post_process_row.
have nonE: fixed ->
    name_or_None (post_process_row cmdf amdf fixed r) = name_or_None r.
  by move=> fx; rewrite {1}/name_or_None Name_post_process_row fx.
have symE: is_subtotal_or_total (post_process_row cmdf amdf fixed r)
           = is_subtotal_or_total r.
  by rewrite /is_subtotal_or_total Symbol_post_process_row.
apply: row_cells_eq; last first.
  have := rest_post_process_row cmdf amdf fixed
            (post_process_row cmdf amdf fixed r).
  by rewrite /row_cells nameE => -[-> -> -> ->].
have fmE: fixed && fixed_regex_search
                      (name_or_None (post_process_row cmdf amdf fixed r))
           = fixed && fixed_regex_search (name_or_None r).
  by case fx: fixed nonE => //= ->.
have c1E := Class_post_process_row cmdf amdf fixed r.
rewrite [LHS]Class_post_process_row nameE symE fmE.
case asset: (Name _ \in _) in c1E *; first by rewrite c1E.
case fm: (fixed && _) in c1E *; first by rewrite c1E.
case tot: (is_subtotal_or_total r) in c1E *; first by rewrite c1E.
by rewrite c1E remap_class_value_idem.
Qed.

(** X11: with a class map free of renaming chains, running [post_process]
    on its own result changes nothing. *)
Theorem post_process_idempotent (vadf : seq row) (cmdf : seq class_entry)
    (amdf : seq asset_entry) (fixed : bool) :
  chain_free cmdf ->
  post_process (post_process vadf cmdf amdf fixed) cmdf amdf fixed
  = post_process vadf cmdf amdf fixed.
Proof.
move=> free; rewrite !post_processE -map_comp; apply: eq_map => r /=.
exact: post_process_row_idem.
Qed.

Lemma post_process_idempotent_witness :
  post_process
    (post_process [:: treasury_row; cd_row; subtotal_row; nameless_row]
       [:: bonds_entry; other_stocks_entry] [:: munis_entry] true)
    [:: bonds_entry; other_stocks_entry] [:: munis_entry] true
  = post_process [:: treasury_row; cd_row; subtotal_row; nameless_row]
      [:: bonds_entry; other_stocks_entry] [:: munis_entry] true.
Proof.
exact: (@post_process_idempotent
          [:: treasury_row; cd_row; subtotal_row; nameless_row]
          [:: bonds_entry; other_stocks_entry] [:: munis_entry] true erefl).
Defined.

(** * Further properties of the report writer *)

Lemma succ4_neq (n : nat) : n.+4 <> n.
Proof. by elim: n => // n IH []. Qed.

(** X12: the three outputs of one call go to three different paths,
    whatever the date suffix: no report overwrites another. *)
Theorem output_paths_distinct (now_strftime : string -> string)
    (vadf : seq row) (cmdf : seq class_entry) (quiet date_on : bool)
    (date_format : string) :
  (report_csv (write_results now_strftime vadf cmdf quiet date_on date_format)).1
    <> (alloc_csv
          (write_results now_strftime vadf cmdf quiet date_on date_format)).1
  /\ forall name odf,
       candidates_csv
         (write_results now_strftime vadf cmdf quiet date_on date_format)
         = Some (name, odf) ->
       name <> (report_csv
                  (write_results now_strftime vadf cmdf quiet date_on
                     date_format)).1 /\
       name <> (alloc_csv
                  (write_results now_strftime vadf cmdf quiet date_on
                     date_format)).1.
Proof.
rewrite /write_results /=.
move: (date_suffix_of _ _ _ ++ _)%string => tail; split.
  case=> /(congr1 String.length) /=.
  exact: succ4_neq.
by move=> name odf; case: ifP => // _ [<- _]; split.
Qed.

Lemma output_paths_distinct_witness :
  "Asset-Map-Candidates.csv"%string <> "out/Van-Alloc-Rep.csv"%string /\
  "Asset-Map-Candidates.csv"%string <> "out/Van-Alloc.csv"%string.
Proof.
have [_ H] := output_paths_distinct (fun _ => ""%string) [:: other_row] [::]
                true false ""%string.
exact: (H "Asset-Map-Candidates.csv"%string
          [:: Candidate (Some "Gold Trust"%string)
                (Some "Other asset types"%string) (Qmake 1 1)] erefl).
Defined.

Lemma filter_none (T : Type) (p : pred T) (s : seq T) :
  all (fun y => ~~ p y) s -> [seq x <- s | p x] = [::].
Proof. by elim: s => [|y s IH] //= /andP [/negbTE -> /IH]. Qed.

Lemma sorted_na_last_split (T : Type) (U : Type) (key : T -> option U)
    (le : rel U) (s : seq T) :
  sorted (relpre key (na_last le)) s ->
  s = [seq x <- s | key x] ++ [seq x <- s | ~~ key x].
Proof.
elim: s => [|x s IH] //= px; have /IH eq_s := path_sorted px.
case kx: (key x) => [u|] /=; first by rewrite -eq_s.
suff none: all (fun y => ~~ key y) s.
  by rewrite (filter_none none) /=; move/all_filterP: none => ->.
elim: s x kx px {IH eq_s} => [|y s IH] x kx //= /andP [lexy py].
case ky: (key y) lexy => [u|]; first by rewrite kx.
by move=> _ /=; apply: IH py.
Qed.

Lemma sort_na_last_split (T U : eqType) (key : T -> option U) (le : rel U)
    (s : seq T) :
  total le -> transitive le ->
  sort (relpre key (na_last le)) s =
  sort (relpre key (na_last le)) [seq x <- s | isSome (key x)]
    ++ [seq x <- s | ~~ isSome (key x)].
Proof.
move=> tot tr.
have tot' : total (relpre key (na_last le)).
  exact/relpre_total/na_last_total.
have tr' : transitive (relpre key (na_last le)).
  exact/relpre_trans/na_last_trans.
rewrite {1}(sorted_na_last_split (sort_sorted tot' s)) filter_sort //.
congr (_ ++ _).
have E: (fun x => ~~ isSome (key x)) =1 (fun x => key x == None).
  by move=> x; case: (key x).
rewrite !(eq_filter E); apply: sort_key_stable.
  exact: na_last_total.
exact: na_last_trans.
Qed.

(** X13: in the drop-and-sort stage rows without a sort key go last, in
    their prior order.  With an Order present the result is the rows whose
    Class the class map orders, sorted, followed by the other rows as they
    stood; with no Order it is the rows with a Class, sorted, followed by
    the rows with a null Class as they stood. *)
Theorem unkeyed_rows_sort_last (vadf : seq row) (cmdf : seq class_entry) :
  (any_order cmdf ->
   sorted_alloc cmdf vadf
   = sort_by_order cmdf
       [seq r <- drop_structural vadf | isSome (order_key cmdf r)]
     ++ [seq r <- drop_structural vadf | ~~ isSome (order_key cmdf r)]) /\
  (~~ any_order cmdf ->
   sorted_alloc cmdf vadf
   = sort_by_Class [seq r <- drop_structural vadf | isSome (Class r)]
     ++ [seq r <- drop_structural vadf | ~~ isSome (Class r)]).
Proof.
rewrite /sorted_alloc has_orderE.
split=> [->|/negbTE ->].
- by apply: sort_na_last_split; [exact: Zleb_total | exact: Zleb_trans].
- by apply: sort_na_last_split;
    [exact: string_leb_total | exact: string_leb_trans].
Qed.

Lemma unkeyed_rows_sort_last_witness :
  sorted_alloc [:: bonds_entry; stocks_entry]
    [:: crypto_row; fund_row; treasury_row]
  = sort_by_order [:: bonds_entry; stocks_entry] [:: fund_row]
    ++ [:: crypto_row; treasury_row] /\
  sorted_alloc [:: unordered_entry]
    [:: subtotal_row; nameless_row; fund_row;
        Row None (Some "Unclassified"%string) None None None None]
  = sort_by_Class [:: nameless_row; fund_row]
    ++ [:: Row None (Some "Unclassified"%string) None None None None].
Proof.
split.
- have [H _] := unkeyed_rows_sort_last [:: crypto_row; fund_row; treasury_row]
                  [:: bonds_entry; stocks_entry].
  exact: (H erefl).
- have [_ H] := unkeyed_rows_sort_last
                  [:: subtotal_row; nameless_row; fund_row;
                      Row None (Some "Unclassified"%string) None None None
                        None]
                  [:: unordered_entry].
  exact: (H erefl).
Defined.

(** X14: sorting is idempotent: the sorted report, fed back to the
    sorting stage with the same class map, comes out unchanged. *)
Theorem sorted_alloc_idempotent (cmdf : seq class_entry) (vadf : seq row) :
  sorted_alloc cmdf (sorted_alloc cmdf vadf) = sorted_alloc cmdf vadf.
Proof.
have keep: drop_structural (sorted_alloc cmdf vadf) = sorted_alloc cmdf vadf.
  apply/all_filterP; rewrite (perm_all _ (perm_sorted_alloc cmdf vadf)).
  exact: filter_all.
rewrite {1}/sorted_alloc keep /sorted_alloc /sort_by_order /sort_by_Class.
case: (has_order cmdf); apply: sorted_sort.
- exact/relpre_trans/na_last_trans/Zleb_trans.
- apply: sort_sorted; exact/relpre_total/na_last_total/Zleb_total.
- exact/relpre_trans/na_last_trans/string_leb_trans.
- apply: sort_sorted; exact/relpre_total/na_last_total/string_leb_total.
Qed.

(** * The CSV pipeline *)

(** X15: end to end, on an input for which the reports are written (the
    classified frame holds some non-null Class), the unsorted report has
    one row for every raw row with a Value, in the same order and with the
    same Account, Symbol, Value and percentage cells; and no row of the
    sorted report has a null Value. *)
Theorem main_csv_reports_keep_rows (now_strftime : string -> string)
    (vadf : seq raw_row) (cmdf : seq class_entry) (amdf : seq asset_entry)
    (fixed quiet date_on : bool) (date_format : string) :
  reports_written (post_process (csv_post_process vadf) cmdf amdf fixed) ->
  [seq (Account r, Symbol r, Value r, Pct r)
  | r <- unsorted_report
           (main_csv now_strftime vadf cmdf amdf fixed quiet date_on
              date_format)]
  = [seq (raw_AccountName r, raw_Symbol r, raw_Value r, raw_Pct r)
    | r <- vadf & has_value r]
  /\ all (fun r => Value r != None)
       (sorted_report
          (main_csv now_strftime vadf cmdf amdf fixed quiet date_on
             date_format)).
Proof.
move=> _; rewrite /main_csv /unsorted_report /sorted_report /=.
have cellsE: [seq (Account r, Symbol r, Value r, Pct r)
             | r <- post_process (csv_post_process vadf) cmdf amdf fixed]
             = [seq (raw_AccountName r, raw_Symbol r, raw_Value r, raw_Pct r)
               | r <- vadf & has_value r].
  rewrite rest_post_process.
  have := row_cells_csv_post_process vadf.
  move/(congr1 (map (fun t : _ * _ * _ * _ * _ =>
                       (t.1.1.1.2, t.1.1.2, t.1.2, t.2)))).
  by rewrite -!map_comp.
split=> //.
rewrite (perm_all _ (perm_sorted_alloc _ _)) /drop_structural all_filter.
have: all (fun t : _ * _ * option cell * _ => t.1.2 != None)
        [seq (Account r, Symbol r, Value r, Pct r)
        | r <- post_process (csv_post_process vadf) cmdf amdf fixed].
  rewrite cellsE all_map all_filter.
  by elim: (vadf) => //= r s ->; rewrite andbT; apply/implyP.
rewrite all_map; apply: sub_all => r /= ->.
exact: implybT.
Qed.

Lemma main_csv_reports_keep_rows_witness :
  [seq (Account r, Symbol r, Value r, Pct r)
  | r <- unsorted_report
           (main_csv (fun _ => ""%string) [:: marker_raw; fund_raw; blank_raw]
              [:: stocks_entry] [:: munis_entry] true true false ""%string)]
  = [:: (Some "IRA"%string, Some "VTSAX"%string, Some (Num 2000),
         Some "2%"%string)].
Proof.
exact: (proj1 (@main_csv_reports_keep_rows (fun _ => ""%string)
                 [:: marker_raw; fund_raw; blank_raw] [:: stocks_entry]
                 [:: munis_entry] true true false ""%string erefl)).
Defined.

(** * Further properties of the loaders *)

Lemma getitem_columns_ok (cols : seq string) (df : frame) :
  all (fun c => c \in columns df) cols ->
  getitem_columns cols df =
  inr (Frame cols [seq [seq cell_of df c r | c <- cols] | r <- data df]).
Proof.
move=> present; rewrite /getitem_columns filter_none //.
by apply: sub_all present => c ->.
Qed.

Lemma getitem_columns_missing (cols : seq string) (df : frame) :
  ~~ all (fun c => c \in columns df) cols ->
  getitem_columns cols df =
  inl (KeyError [seq c <- cols | c \notin columns df]).
Proof.
rewrite /getitem_columns -has_predC has_filter.
by case: [seq c <- cols | _].
Qed.

Lemma getitem_columns_shape (cols : seq string) (df df' : frame) :
  getitem_columns cols df = inr df' ->
  columns df' = cols /\ all (fun r => size r == size cols) (data df').
Proof.
rewrite /getitem_columns; case: [seq c <- cols | _] => // -[<-] /=.
by split=> //; rewrite all_map; apply/sub_all/all_predT => r _ /=;
   rewrite size_map.
Qed.

(** X16: a present asset-map file is read by column name: the order of
    its columns does not matter and further columns are dropped.  The
    result has columns Name, Class, "%", one row per file row, and the
    message is printed unless quiet. *)
Theorem read_asset_map_by_name (read_csv : string -> exn + frame)
    (asset_map_path : string) (quiet : bool) (df : frame) :
  read_csv asset_map_path = inr df ->
  all (fun c => c \in columns df) asset_map_columns ->
  exists amdf,
    [/\ read_asset_map read_csv asset_map_path quiet
        = (if quiet then [::]
           else [:: ("Read Asset map from " ++ asset_map_path)%string],
           inr amdf),
        columns amdf = asset_map_columns
      & asset_entries amdf
        = [seq AssetEntry (cell_of df "Name"%string r)
                 (cell_of df "Class"%string r) (cell_of df "%"%string r)
          | r <- data df]].
Proof.
move=> file present; rewrite /read_asset_map file getitem_columns_ok //.
eexists; split; [reflexivity | by [] |].
by rewrite /asset_entries /= -map_comp.
Qed.

Lemma read_asset_map_by_name_witness :
  exists amdf,
    read_asset_map (fun _ => inr shuffled_asset_file) "Asset-Map.csv"%string
      true = ([::], inr amdf) /\
    asset_entries amdf = [:: munis_entry].
Proof.
have [amdf [H1 _ H2]] :=
  @read_asset_map_by_name (fun _ => inr shuffled_asset_file)
    "Asset-Map.csv"%string true shuffled_asset_file erefl erefl.
by exists amdf.
Defined.

(** X17: what [read_asset_map] raises.  It never raises
    [FileNotFoundError]; it raises either the other exception [pd.read_csv]
    raised, or a [KeyError] naming exactly the columns among Name, Class,
    "%" that the file lacks; and in both cases it has printed nothing,
    quiet or not. *)
Theorem read_asset_map_raises (read_csv : string -> exn + frame)
    (asset_map_path : string) (quiet : bool) (printed : seq string)
    (e : exn) :
  read_asset_map read_csv asset_map_path quiet = (printed, inl e) ->
  [/\ printed = [::], e <> FileNotFoundError
    & read_csv asset_map_path = inl e \/
      exists2 df, read_csv asset_map_path = inr df
                & e = KeyError [seq c <- asset_map_columns
                               | c \notin columns df]].
Proof.
rewrite /read_asset_map; case file: (read_csv asset_map_path) => [e'|df].
  by case: e' file => [|m|m] file // [<- <-]; split=> //; left.
case present: (all (fun c => c \in columns df) asset_map_columns).
  by rewrite getitem_columns_ok.
rewrite getitem_columns_missing ?present // => -[<- <-]; split=> //.
by right; exists df.
Qed.

Lemma read_asset_map_raises_witness :
  read_asset_map (fun _ => inr nameless_asset_file) "Asset-Map.csv"%string
    false = ([::], inl (KeyError [:: "Name"%string])).
Proof.
have [] := @read_asset_map_raises (fun _ => inr nameless_asset_file)
             "Asset-Map.csv"%string false [::]
             (KeyError [:: "Name"%string]) erefl.
by [].
Defined.

(** X18: whatever the file holds, a frame returned by [read_asset_map]
    has exactly the columns Name, Class, "%", and three cells in every
    row. *)
Theorem read_asset_map_shape (read_csv : string -> exn + frame)
    (asset_map_path : string) (quiet : bool) (printed : seq string)
    (amdf : frame) :
  read_asset_map read_csv asset_map_path quiet = (printed, inr amdf) ->
  columns amdf = asset_map_columns /\ all (fun r => size r == 3) (data amdf).
Proof.
rewrite /read_asset_map; case file: (read_csv asset_map_path) => [e'|df].
  by case: e' file => [|m|m] file // [_ <-].
case sel: (getitem_columns asset_map_columns df) => [e'|df'].
  by case: e' sel => [|m|m] sel // [_ <-].
by case=> _ <-; exact: (getitem_columns_shape sel).
Qed.

Lemma read_asset_map_shape_witness :
  columns (Frame asset_map_columns [::]) = asset_map_columns /\
  all (fun r => size r == 3) (data (Frame asset_map_columns [::])).
Proof.
exact: (@read_asset_map_shape (fun _ => inl FileNotFoundError)
          "Asset-Map.csv"%string true _ _ erefl).
Defined.

(** X19: when no file exists at the class-map path, [read_class_map] does
    not raise: it returns the built-in class map of eight classes and
    prints its warning whatever the quiet flag. *)
Theorem read_class_map_missing_file (read_csv : string -> exn + frame)
    (class_map_path : string) (quiet : bool) :
  read_csv class_map_path = inl FileNotFoundError ->
  read_class_map read_csv class_map_path quiet =
    ([:: ("Class Map not found at " ++ class_map_path ++
          " - falling over to hardcoded Asset Classesfor HTML mapping.")%string],
     inr default_class_map) /\
  size (data default_class_map) = 8.
Proof. by move=> missing; rewrite /read_class_map missing. Qed.

Lemma read_class_map_missing_file_witness :
  read_class_map (fun _ => inl FileNotFoundError) "Class-Map.csv"%string true =
    ([:: "Class Map not found at Class-Map.csv - falling over to hardcoded Asset Classesfor HTML mapping."%string],
     inr default_class_map).
Proof.
exact: (proj1 (@read_class_map_missing_file (fun _ => inl FileNotFoundError)
                 "Class-Map.csv"%string true erefl)).
Defined.

(** X20: the column-count check of [read_class_map] can never fire: the
    function raises neither its own [ValueError] nor [FileNotFoundError];
    a file lacking one of Class, ClassMap, Order is reported by the
    [KeyError] of the column selection; and every frame it returns has
    exactly those three columns. *)
Theorem read_class_map_outcomes (read_csv : string -> exn + frame)
    (class_map_path : string) (quiet : bool) :
  [/\ forall msg,
        (read_class_map read_csv class_map_path quiet).2
          <> inl (ClassMapValueError msg),
      (read_class_map read_csv class_map_path quiet).2
        <> inl (ClassMapPandas FileNotFoundError),
      forall df,
        read_csv class_map_path = inr df ->
        ~~ all (fun c => c \in columns df) class_map_columns ->
        read_class_map read_csv class_map_path quiet
        = ([::], inl (ClassMapPandas
                        (KeyError [seq c <- class_map_columns
                                  | c \notin columns df])))
    & forall cmdf,
        (read_class_map read_csv class_map_path quiet).2 = inr cmdf ->
        columns cmdf = class_map_columns].
Proof.
rewrite /read_class_map; case file: (read_csv class_map_path) => [e|df].
  by case: e file => [|m|m] file; split=> // cmdf [<-].
case present: (all (fun c => c \in columns df) class_map_columns).
  rewrite getitem_columns_ok //; move: present => /= present; split=> //.
  - by move=> df' [<-]; rewrite present.
  - by move=> cmdf [<-].
rewrite getitem_columns_missing ?present //; split=> //.
by move=> df' [<-].
Qed.

Lemma read_class_map_outcomes_witness :
  read_class_map
    (fun _ => inr (Frame [:: "Class"%string; "Order"%string] [::]))
    "Class-Map.csv"%string false
  = ([::], inl (ClassMapPandas (KeyError [:: "ClassMap"%string]))) /\
  columns default_class_map = class_map_columns.
Proof.
have [_ _ H1 _] :=
  read_class_map_outcomes
    (fun _ => inr (Frame [:: "Class"%string; "Order"%string] [::]))
    "Class-Map.csv"%string false.
have [_ _ _ H2] :=
  read_class_map_outcomes (fun _ => inl FileNotFoundError)
    "Class-Map.csv"%string true.
by split; [exact: (H1 _ erefl erefl) | exact: (H2 _ erefl)].
Defined.

(** X21: what [read_csv_portfolio] returns and raises.  A frame it returns
    has the columns Fund Name, Account Name, Symbol, Value, % of Portfolio
    in that order, read by name from whatever pandas delivered; its own
    column-count [ValueError] can never fire; and a [FileNotFoundError] is
    always re-raised with the message that quotes the path. *)
Theorem read_csv_portfolio_outcomes
    (read_csv_usecols : string -> seq string -> exn + frame)
    (csv_path : string) :
  [/\ forall msg,
        read_csv_portfolio read_csv_usecols csv_path
          <> inl (PortfolioValueError msg),
      read_csv_portfolio read_csv_usecols csv_path
        <> inl (PortfolioPandas FileNotFoundError),
      read_csv_usecols csv_path columns_in = inl FileNotFoundError ->
        read_csv_portfolio read_csv_usecols csv_path
        = inl (PortfolioFileNotFoundError
                 ("Vanguard Portfolio CSV file not found at " ++
                  String (ascii_of_nat 34) csv_path ++
                  String (ascii_of_nat 34) "")%string)
    & forall df,
        read_csv_usecols csv_path columns_in = inr df ->
        all (fun c => c \in columns df) columns_out ->
        read_csv_portfolio read_csv_usecols csv_path
        = inr (Frame columns_out
                 [seq [seq cell_of df c r | c <- columns_out]
                 | r <- data df])].
Proof.
rewrite /read_csv_portfolio.
case file: (read_csv_usecols csv_path columns_in) => [e|df].
  by case: e file => [|m|m] file; split.
case present: (all (fun c => c \in columns df) columns_out).
  by rewrite getitem_columns_ok //; split=> // df' [<-].
rewrite getitem_columns_missing ?present //; move: present => /= present.
by split=> // df' [<-]; rewrite present.
Qed.

Lemma read_csv_portfolio_outcomes_witness :
  read_csv_portfolio (fun _ _ => inl FileNotFoundError)
    "data/PortfolioWatchData.csv"%string
  = inl (PortfolioFileNotFoundError
           ("Vanguard Portfolio CSV file not found at " ++
            String (ascii_of_nat 34) "data/PortfolioWatchData.csv" ++
            String (ascii_of_nat 34) "")%string) /\
  read_csv_portfolio (fun _ _ => inr portfolio_file)
    "data/PortfolioWatchData.csv"%string
  = inr (Frame columns_out
           [:: [:: Some "Total Stock Market Index"%string; Some "IRA"%string;
                   Some "VTSAX"%string; Some "2000"%string;
                   Some "2%"%string]]).
Proof.
have [_ _ H1 _] := read_csv_portfolio_outcomes
                     (fun _ _ => inl FileNotFoundError)
                     "data/PortfolioWatchData.csv"%string.
have [_ _ _ H2] := read_csv_portfolio_outcomes
                     (fun _ _ => inr portfolio_file)
                     "data/PortfolioWatchData.csv"%string.
by split; [exact: (H1 erefl) | exact: (H2 _ erefl erefl)].
Defined.
